(** * Session and connectivity controller of the frontend

    A shallow embedding of [frontend/src/context/user.tsx] (the
    [UserProvider] component, [inspectError]), [frontend/src/api/api.ts]
    ([handleError]), [frontend/src/api/error.ts] ([StatusCode], [ApiError],
    [parseError]) and [frontend/src/utils/result.ts] ([Result]).

    JavaScript runs every callback to completion on one thread, so the
    program is modelled as a state-and-exception monad [JS] over a [World]
    holding the component instances, the module-level [USER_PROVIDER], the
    in-flight requests, the toast container, the websocket listeners and a
    trace of the outward effects.  One [Event] is one callback. *)

From Stdlib Require Import ZArith String List Lia.
From stdpp Require Import base option list gmap strings.

Local Open Scope Z_scope.
Local Open Scope string_scope.
Local Open Scope list_scope.

(** ** Data model *)

(** [FullUser] of the generated client. *)
Record FullUser : Type := mkFullUser {
  displayName : string;
  uuid : string
}.

(** [enum StatusCode]: a numeric enum, a number at run time. *)
Module StatusCode.
Definition ArbitraryJSError : Z := -2.
Definition JsonDecodeError : Z := -1.
Definition Unauthenticated : Z := 1000.
End StatusCode.

(** [type ApiError].  The field is typed [StatusCode] but holds whatever
    number the server sent. *)
Record ApiError : Type := mkApiError {
  status_code : Z;
  message : string
}.

(** [Result<T, E>] with its two classes [Ok] and [Err]. *)
Inductive Result (T E : Type) : Type :=
| Ok (ok : T)
| Err (err : E).
Arguments Ok {T E} ok.
Arguments Err {T E} err.

(** [Ok.match] calls [ifOk(this.ok)], [Err.match] calls [ifErr(this.err)]. *)
Definition Result_match {T E R : Type}
    (this : Result T E) (ifOk : T -> R) (ifErr : E -> R) : R :=
  match this with
  | Ok ok => ifOk ok
  | Err err => ifErr err
  end.

(** [UserProviderState.user : FullUser | "unauthenticated" | "loading"]. *)
Inductive UserSlot : Type :=
| full (u : FullUser)
| unauthenticated
| loading.

Record UserProviderState : Type := mkState { user : UserSlot }.

(** A [UserProvider] instance: [this.state] and [this.fetching]. *)
Record UserProvider : Type := mkProvider {
  state : UserProviderState;
  fetching : bool
}.

(** The field initialisers of the class:
    [state = { user: "loading" }], [fetching = false]. *)
Definition new_UserProvider : UserProvider :=
  {| state := {| user := loading |}; fetching := false |}.

(** A fetch response as far as [parseError] looks at it: what
    [response.json()] yields, [None] when the body is not JSON (the call
    then rejects).  The parsed body is taken at the type the source gives
    it, [ApiError]. *)
Record Response : Type := mkResponse { body_json : option ApiError }.

(** Values the code can catch.  [ResponseError] and [RequiredError] are the
    two classes [handleError] tests with [instanceof]; every other thrown
    value falls in its last branch. *)
Inductive JsError : Type :=
| ResponseError (response : Response)
| RequiredError (field msg : string)
| SyntaxError (msg : string)
| OtherError (msg : string).

(** A settled promise. *)
Inductive Settled (T : Type) : Type :=
| Fulfilled (value : T)
| Rejected (reason : JsError).
Arguments Fulfilled {T} value.
Arguments Rejected {T} reason.

(** Modelled from the spec: the states of the websocket reported to the
    ["state"] listeners ([api/ws.ts] is not part of the sources; section 3
    of the specification gives [Connecting | Connected | Disconnected]).
    The listener itself only tells ["connected"] from everything else. *)
Inductive ConnectionState : Type :=
| connecting
| connected
| disconnected.

(** ** Toasts (react-toastify) *)

(** Which of [toast.warn], [toast.error], [toast.success] made the toast. *)
Inductive ToastType : Type := by_warn | by_error | by_success.

Inductive AutoClose : Type :=
| ac_false
| ac_ms (ms : nat).

(** The options the code passes; [None] is an option left out. *)
Record ToastOptions : Type := mkOptions {
  closeButton : option bool;
  closeOnClick : option bool;
  autoClose : option AutoClose;
  isLoading : option bool
}.

Definition no_options : ToastOptions :=
  {| closeButton := None; closeOnClick := None;
     autoClose := None; isLoading := None |}.

Record Toast : Type := mkToast {
  toast_id : nat;
  toast_type : ToastType;
  toast_content : string;
  toast_options : ToastOptions
}.

(** A toast stays until it is dismissed when [autoClose] is [false]. *)
Definition persistent (t : Toast) : Prop :=
  autoClose (toast_options t) = Some ac_false.

#[global] Instance AutoClose_eq_dec : EqDecision AutoClose.
Proof. solve_decision. Defined.

#[global] Instance persistent_dec (t : Toast) : Decision (persistent t).
Proof. unfold persistent. apply _. Defined.

(** The two argument tuples of [componentDidMount]. *)
Definition errorToast : string * ToastOptions :=
  ("Connecting websocket...",
   {| closeButton := Some false; closeOnClick := Some false;
      autoClose := Some ac_false; isLoading := Some true |}).

Definition successToast : string * ToastOptions :=
  ("Websocket has connected",
   {| closeButton := None; closeOnClick := None;
      autoClose := Some (ac_ms 1000); isLoading := None |}).

(** ** The world *)

(** Effects that leave the page or reach the console, most recent first. *)
Inductive Effect : Type :=
| EGetMe (this : nat)
| EWsConnect (url : string)
| EConsoleError (msg : string)
| EConsoleWarn (msg : string)
| EUncaught (e : JsError).

Record World : Type := mkWorld {
  (** [window.location.origin] *)
  origin : string;
  (** the component instances, by identity; an instance not yet written to
      has its initial fields *)
  instances : gmap nat UserProvider;
  (** [let USER_PROVIDER: UserProvider | null] *)
  USER_PROVIDER : option nat;
  (** [Api.users.getMe()] calls whose [then] callback has not run yet, each
      with the instance its callback closes over *)
  pending : list nat;
  (** the toasts on screen and the next identifier [toast] hands out *)
  toasts : list Toast;
  next_toast : nat;
  (** the ["state"] listeners registered at [WS], each being the
      [runningToast] variable its closure captured *)
  listeners : list (option nat);
  trace : list Effect
}.

Definition instance (w : World) (this : nat) : UserProvider :=
  default new_UserProvider (instances w !! this).

(** What the claims call the Session of a controller. *)
Definition session (w : World) (this : nat) : UserSlot :=
  user (state (instance w this)).

Definition guard (w : World) (this : nat) : bool :=
  fetching (instance w this).

Definition with_instances (f : gmap nat UserProvider -> gmap nat UserProvider)
    (w : World) : World :=
  mkWorld (origin w) (f (instances w)) (USER_PROVIDER w) (pending w)
          (toasts w) (next_toast w) (listeners w) (trace w).

Definition with_USER_PROVIDER (p : option nat) (w : World) : World :=
  mkWorld (origin w) (instances w) p (pending w)
          (toasts w) (next_toast w) (listeners w) (trace w).

Definition with_pending (f : list nat -> list nat) (w : World) : World :=
  mkWorld (origin w) (instances w) (USER_PROVIDER w) (f (pending w))
          (toasts w) (next_toast w) (listeners w) (trace w).

Definition with_toasts (f : list Toast -> list Toast) (n : nat)
    (w : World) : World :=
  mkWorld (origin w) (instances w) (USER_PROVIDER w) (pending w)
          (f (toasts w)) n (listeners w) (trace w).

Definition with_listeners (f : list (option nat) -> list (option nat))
    (w : World) : World :=
  mkWorld (origin w) (instances w) (USER_PROVIDER w) (pending w)
          (toasts w) (next_toast w) (f (listeners w)) (trace w).

Definition with_effect (e : Effect) (w : World) : World :=
  mkWorld (origin w) (instances w) (USER_PROVIDER w) (pending w)
          (toasts w) (next_toast w) (listeners w) (e :: trace w).

(** The page as it loads. *)
Definition init (o : string) : World :=
  mkWorld o ∅ None [] [] 0%nat [] [].

(** ** The monad of callbacks *)

Inductive Completion (A : Type) : Type :=
| Normal (a : A) (w : World)
| Throw (e : JsError) (w : World).
Arguments Normal {A} a w.
Arguments Throw {A} e w.

Definition JS (A : Type) : Type := World -> Completion A.

Definition ret {A : Type} (a : A) : JS A := fun w => Normal a w.

Definition bind {A B : Type} (m : JS A) (k : A -> JS B) : JS B :=
  fun w =>
    match m w with
    | Normal a w' => k a w'
    | Throw e w' => Throw e w'
    end.

Definition throw {A : Type} (e : JsError) : JS A := fun w => Throw e w.

(** [try { body } catch (e) { handler }] *)
Definition try_catch {A : Type} (body : JS A) (handler : JsError -> JS A)
    : JS A :=
  fun w =>
    match body w with
    | Normal a w' => Normal a w'
    | Throw e w' => handler e w'
    end.

#[global] Instance JS_ret : MRet JS := @ret.
#[global] Instance JS_bind : MBind JS := fun A B k m => bind m k.

(** [await promise] *)
Definition await {T : Type} (promise : Settled T) : JS T :=
  match promise with
  | Fulfilled value => ret value
  | Rejected reason => throw reason
  end.

Definition get {A : Type} (f : World -> A) : JS A := fun w => Normal (f w) w.
Definition modify (f : World -> World) : JS unit := fun w => Normal tt (f w).

(** An event handler run to completion; an exception nobody caught is
    reported and the page goes on. *)
Definition run (m : JS unit) (w : World) : World :=
  match m w with
  | Normal _ w' => w'
  | Throw e w' => with_effect (EUncaught e) w'
  end.

(** ** Primitives *)

(** [this.setState({ user })] on the instance [this]. *)
Definition write_user (this : nat) (u : UserSlot) (w : World) : World :=
  with_instances
    (insert this {| state := {| user := u |};
                    fetching := fetching (instance w this) |}) w.

Definition setState (this : nat) (u : UserSlot) : JS unit :=
  modify (write_user this u).

(** [this.fetching = b] *)
Definition write_fetching (this : nat) (b : bool) (w : World) : World :=
  with_instances
    (insert this {| state := state (instance w this); fetching := b |}) w.

Definition set_fetching (this : nat) (b : bool) : JS unit :=
  modify (write_fetching this b).

Definition CONSOLE_error (msg : string) : JS unit :=
  modify (with_effect (EConsoleError msg)).

Definition CONSOLE_warn (msg : string) : JS unit :=
  modify (with_effect (EConsoleWarn msg)).

(** [toast.warn], [toast.error], [toast.success]: the toast goes on screen
    and its fresh identifier is returned. *)
Definition toast_show (ty : ToastType) (args : string * ToastOptions)
    : JS nat :=
  fun w =>
    let id := next_toast w in
    Normal id (with_toasts (cons (mkToast id ty (fst args) (snd args))) (S id) w).

(** [toast.dismiss(id)] *)
Definition toast_dismiss (id : nat) : JS unit :=
  fun w =>
    Normal tt (with_toasts (filter (fun t => toast_id t ≠ id)) (next_toast w) w).

(** Modelled from the spec: [WS.connect(url)] of the absent [api/ws.ts]
    starts the one real-time connection; here the call is recorded. *)
Definition WS_connect (url : string) : JS unit :=
  modify (with_effect (EWsConnect url)).

(** [WS.addEventListener("state", listener)], the listener given by the
    variable it closes over. *)
Definition WS_addEventListener (runningToast : option nat) : JS unit :=
  modify (with_listeners (fun l => l ++ [runningToast])).

(** [Api.users.getMe().then(callback)]: the request leaves, the callback
    of [this] waits for it. *)
Definition Api_users_getMe_then (this : nat) : JS unit :=
  modify (fun w => with_effect (EGetMe this)
                     (with_pending (fun l => l ++ [this]) w)).

(** [String.prototype.replace] with a string pattern: the first occurrence
    is replaced.  The replacement is taken literally, which is what
    JavaScript does for one without [$], as ["ws"] is. *)
Fixpoint strip_prefix (p s : string) : option string :=
  match p, s with
  | EmptyString, _ => Some s
  | String a p', String b s' =>
      if Ascii.eqb a b then strip_prefix p' s' else None
  | String _ _, EmptyString => None
  end.

Fixpoint replace (pattern replacement s : string) : string :=
  match strip_prefix pattern s with
  | Some rest => replacement +:+ rest
  | None =>
      match s with
      | EmptyString => EmptyString
      | String c s' => String c (replace pattern replacement s')
      end
  end.

(** ** [api/error.ts] and [api/api.ts] *)

Definition Response_json (response : Response) : Settled ApiError :=
  match body_json response with
  | Some v => Fulfilled v
  | None => Rejected (SyntaxError "Unexpected token")
  end.

Definition parseError (response : Response) : JS ApiError :=
  try_catch
    (await (Response_json response))
    (fun _ =>
       CONSOLE_error "Got invalid json";;
       mret {| status_code := StatusCode.JsonDecodeError;
               message := "The server's response was invalid json" |}).

Definition handleError {T : Type} (promise : Settled T)
    : JS (Result T ApiError) :=
  try_catch
    (v ← await promise; mret (Ok v))
    (fun e =>
       match e with
       | ResponseError response =>
           err ← parseError response; mret (Err err)
       | RequiredError _ msg =>
           CONSOLE_error msg;;
           mret (Err {| status_code := StatusCode.JsonDecodeError;
                        message := "The server's response didn't match the spec" |})
       | _ =>
           CONSOLE_error "Unknown error occurred:";;
           mret (Err {| status_code := StatusCode.ArbitraryJSError;
                        message := "Unknown error occurred" |})
       end).

(** ** [context/user.tsx] *)

(** The URL handed to [WS.connect]. *)
Definition ws_url (o : string) : string :=
  replace "http" "ws" o +:+ "/api/v1/ws".

(** The callback [fetchUser] gives to [then]. *)
Definition fetchUser_then (this : nat) (result : Result FullUser ApiError)
    : JS unit :=
  Result_match result
    (fun user =>
       o ← get origin;
       WS_connect (ws_url o);;
       setState this (full user))
    (fun error =>
       if (status_code error =? StatusCode.Unauthenticated)%Z
       then setState this unauthenticated
       else toast_show by_error (message error, no_options);; mret tt);;
  set_fetching this false.

Definition fetchUser (this : nat) : JS unit :=
  f ← get (fun w => guard w this);
  if f : bool then mret tt
  else
    set_fetching this true;;
    setState this loading;;
    Api_users_getMe_then this.

Definition get_runningToast (k : nat) : JS (option nat) :=
  get (fun w => default None (listeners w !! k)).

Definition set_runningToast (k : nat) (v : option nat) : JS unit :=
  modify (with_listeners (fun l => <[k := v]> l)).

(** The listener [componentDidMount] registers, [k] naming its closure. *)
Definition state_listener (k : nat) (newState : ConnectionState) : JS unit :=
  match newState with
  | connected =>
      runningToast ← get_runningToast k;
      match runningToast with
      | Some t => toast_dismiss t;; set_runningToast k None
      | None => mret tt
      end;;
      toast_show by_success successToast;; mret tt
  | _ =>
      runningToast ← get_runningToast k;
      match runningToast with
      | None =>
          t ← toast_show by_error errorToast;
          set_runningToast k (Some t)
      | Some _ => mret tt
      end
  end.

Definition componentDidMount (this : nat) : JS unit :=
  fetchUser this;;
  p ← get USER_PROVIDER;
  match p with
  | None => modify (with_USER_PROVIDER (Some this))
  | Some q =>
      if decide (q = this)
      then CONSOLE_error "UserProvider did mount twice"
      else CONSOLE_error "Two instances of UserProvider are used"
  end;;
  runningToast ← toast_show by_warn errorToast;
  WS_addEventListener (Some runningToast).

Definition componentWillUnmount (this : nat) : JS unit :=
  p ← get USER_PROVIDER;
  match p with
  | Some q =>
      if decide (q = this)
      then modify (with_USER_PROVIDER None)
      else CONSOLE_error "Two instances of UserProvider are used"
  | None => CONSOLE_error "UserProvider instance did unmount twice"
  end.

(** What [render] returns, by branch. *)
Inductive View : Type :=
| LoadingView
| LoginView
| ContextProvider (user : FullUser).

Definition render (this : UserProvider) : View :=
  match user (state this) with
  | loading => LoadingView
  | unauthenticated => LoginView
  | full u => ContextProvider u
  end.

Definition inspectError (error : ApiError) : JS unit :=
  if (status_code error =? StatusCode.Unauthenticated)%Z
  then
    p ← get USER_PROVIDER;
    match p with
    | Some q => setState q unauthenticated
    | None => CONSOLE_warn "inspectError has been called without a UserProvider"
    end
  else mret tt.

(** ** Events *)

Fixpoint forEach {A : Type} (f : A -> JS unit) (l : list A) : JS unit :=
  match l with
  | [] => mret tt
  | x :: l' => f x;; forEach f l'
  end.

(** Modelled from the spec: the absent [api/ws.ts] emits a ["state"] event
    at every transition of the connection, calling the registered
    listeners in the order they were added. *)
Definition WS_emit_state (newState : ConnectionState) : JS unit :=
  n ← get (fun w => length (listeners w));
  forEach (fun k => state_listener k newState) (seq 0 n).

(** The [k]-th in-flight [usersApi.getMe()] settles with [o]:
    [handleError] turns it into a [Result] and the [then] callback of the
    waiting instance runs.  Were [handleError] to reject, the callback
    would be skipped. *)
Definition complete (k : nat) (o : Settled FullUser) : JS unit :=
  p ← get (fun w => pending w !! k);
  match p with
  | None => mret tt
  | Some this =>
      modify (with_pending (delete k));;
      result ← handleError o;
      fetchUser_then this result
  end.

(** A toast with a timeout leaves the screen. *)
Definition toast_expire (id : nat) : JS unit :=
  fun w =>
    Normal tt (with_toasts (filter (fun t => toast_id t ≠ id ∨ persistent t))
                 (next_toast w) w).

Inductive Event : Type :=
| Mount (this : nat)
| Unmount (this : nat)
| CallFetchUser (this : nat)
| Complete (k : nat) (o : Settled FullUser)
| InspectError (e : ApiError)
| WsState (newState : ConnectionState)
| ToastExpire (id : nat).

Definition handler (ev : Event) : JS unit :=
  match ev with
  | Mount this => componentDidMount this
  | Unmount this => componentWillUnmount this
  | CallFetchUser this => fetchUser this
  | Complete k o => complete k o
  | InspectError e => inspectError e
  | WsState s => WS_emit_state s
  | ToastExpire id => toast_expire id
  end.

Definition step (ev : Event) (w : World) : World := run (handler ev) w.

Definition steps (evs : list Event) (w : World) : World :=
  fold_left (fun w ev => step ev w) evs w.

Inductive reachable : World -> Prop :=
| reachable_init (o : string) : reachable (init o)
| reachable_step (w : World) (ev : Event) :
    reachable w -> reachable (step ev w).

(** ** Observations on a world *)

Definition is_getMe (e : Effect) : bool :=
  match e with EGetMe _ => true | _ => false end.

Definition is_connect (e : Effect) : bool :=
  match e with EWsConnect _ => true | _ => false end.

Definition is_uncaught (e : Effect) : bool :=
  match e with EUncaught _ => true | _ => false end.

(** How many "get current user" requests have left the page. *)
Definition requests_issued (w : World) : nat :=
  length (filter (fun e => is_getMe e) (trace w)).

(** How many times [WS.connect] has been invoked. *)
Definition ws_connects (w : World) : nat :=
  length (filter (fun e => is_connect e) (trace w)).

(** The persistent toasts on screen. *)
Definition visible_persistent (w : World) : list Toast :=
  filter persistent (toasts w).

(** ** The claims about a surplus controller, in the specification's words *)

(** A callback that took [w] to [w'] did nothing but log: no instance, no
    request, no toast and no listener changed. *)
Definition only_logs (w w' : World) : Prop :=
  instances w' = instances w /\ pending w' = pending w /\
  toasts w' = toasts w /\ listeners w' = listeners w /\
  requests_issued w' = requests_issued w.

(** "Constructing a second controller while one is registered does not
    replace the first, and does not throw", "any surplus instance is inert
    (log-only)". *)
Definition surplus_mount_inert (w : World) (first second : nat) : Prop :=
  exists w' : World,
    componentDidMount second w = Normal tt w' /\
    USER_PROVIDER w' = Some first /\
    only_logs w w'.

(** Sample values. *)
Definition alice : FullUser := {| displayName := "Alice"; uuid := "u1" |}.

Definition no_session : ApiError :=
  {| status_code := 1000; message := "no session" |}.

Definition not_found : ApiError :=
  {| status_code := 404; message := "not found" |}.

(** The page after the one [UserProvider] of the root route has mounted. *)
Definition mounted : World := step (Mount 0%nat) (init "https://example.org").

(** The toast [componentDidMount] opens, and the one the fetch callback
    shows for an error it does not handle. *)
Definition connecting_toast (id : nat) : Toast :=
  mkToast id by_warn (fst errorToast) (snd errorToast).

Definition error_toast (id : nat) (e : ApiError) : Toast :=
  mkToast id by_error (message e) no_options.

(** The world the fetch callback leaves, branch by branch. *)
Definition after_fetch (this : nat) (result : Result FullUser ApiError)
    (w : World) : World :=
  write_fetching this false
    match result with
    | Ok u =>
        write_user this (full u) (with_effect (EWsConnect (ws_url (origin w))) w)
    | Err e =>
        if (status_code e =? StatusCode.Unauthenticated)%Z
        then write_user this unauthenticated w
        else with_toasts (cons (error_toast (next_toast w) e))
               (S (next_toast w)) w
    end.

(** The world a [fetchUser] that passes the guard leaves. *)
Definition after_fetchUser (this : nat) (w : World) : World :=
  with_effect (EGetMe this)
    (with_pending (fun l => l ++ [this])
       (write_user this loading (write_fetching this true w))).

(** What a server's error response with body [e] makes the SDK promise
    settle with. *)
Definition error_response (e : ApiError) : Settled FullUser :=
  Rejected (ResponseError {| body_json := Some e |}).

(** ** The state machine of a controller *)






(** What holds of the guard in every reachable world: a controller has at
    most one request in flight, has its guard set while it has one, and is
    not authenticated while its guard is set. *)
Definition guard_inv (w : World) : Prop :=
  NoDup (pending w) /\
  (forall j : nat, j ∈ pending w -> guard w j = true) /\
  (forall (j : nat) (u : FullUser), guard w j = true -> session w j <> full u).

(** The page once the mounted controller's first fetch has succeeded. *)
Definition signed_in : World := step (Complete 0%nat (Fulfilled alice)) mounted.


(** ** The toasts and the listeners *)

(** The toasts the listeners hold in their [runningToast] variables. *)
Definition running (ls : list (option nat)) : list nat := omap id ls.

(** What holds of the toast container and the listeners in every reachable
    world: identifiers are fresh and distinct, and the persistent toasts on
    screen are exactly the ones some listener holds, each held once. *)
Definition toasts_ok (ts : list Toast) (n : nat) (ls : list (option nat))
    : Prop :=
  Forall (fun t => (toast_id t < n)%nat) ts /\
  NoDup (toast_id <$> ts) /\
  toast_id <$> filter persistent ts ≡ₚ running ls.

Definition toast_inv (w : World) : Prop :=
  toasts_ok (toasts w) (next_toast w) (listeners w).




(** ** [utils/result.ts], the other methods *)

(** The fields [isOk] and [isErr] of the two classes. *)
Definition isOk {T E : Type} (this : Result T E) : bool :=
  match this with Ok _ => true | Err _ => false end.

Definition isErr {T E : Type} (this : Result T E) : bool :=
  match this with Ok _ => false | Err _ => true end.

(** [Ok.andThen] returns [func(this.ok)], [Err.andThen] a new [Err] of the
    same error. *)
Definition Result_andThen {T U E : Type}
    (this : Result T E) (func : T -> Result U E) : Result U E :=
  match this with
  | Ok ok => func ok
  | Err err => Err err
  end.

Definition Result_map {T U E : Type}
    (this : Result T E) (func : T -> U) : Result U E :=
  match this with
  | Ok ok => Ok (func ok)
  | Err err => Err err
  end.

Definition Result_mapErr {T E F : Type}
    (this : Result T E) (func : E -> F) : Result T F :=
  match this with
  | Ok ok => Ok ok
  | Err err => Err (func err)
  end.

(** [class UnwrapError<E> extends Error], with the value it is built from.
    Its message is ["Called `unwrap` on an `Err` with value: " + value],
    the value turned into a string as JavaScript does. *)
Record UnwrapError (E : Type) : Type := mkUnwrapError { value : E }.
Arguments mkUnwrapError {E} value.
Arguments value {E} _.

Definition UnwrapError_message {E : Type} (toString : E -> string)
    (e : UnwrapError E) : string :=
  "Called `unwrap` on an `Err` with value: " +:+ toString (value e).

(** A call that returns or throws. *)
Inductive Outcome (A X : Type) : Type :=
| Returns (a : A)
| Throws (x : X).
Arguments Returns {A X} a.
Arguments Throws {A X} x.

(** [Ok.unwrap] returns the value, [Err.unwrap] throws. *)
Definition Result_unwrap {T E : Type} (this : Result T E)
    : Outcome T (UnwrapError E) :=
  match this with
  | Ok ok => Returns ok
  | Err err => Throws (mkUnwrapError err)
  end.

Definition Result_unwrapOr {T E : Type} (this : Result T E) (default_ : T)
    : T :=
  match this with
  | Ok ok => ok
  | Err _ => default_
  end.

Definition Result_unwrapOrElse {T E : Type} (this : Result T E)
    (default_ : unit -> T) : T :=
  match this with
  | Ok ok => ok
  | Err _ => default_ tt
  end.

(** [Result.collect]: the loop over the iterable, [array] being what has
    been pushed so far; an [Err] ends it at once ([result.cast()] on an
    [Err] is a new [Err] of the same error). *)
Fixpoint collect_from {T E : Type} (array : list T)
    (iterable : list (Result T E)) : Result (list T) E :=
  match iterable with
  | [] => Ok array
  | result :: rest =>
      match result with
      | Ok ok => collect_from (array ++ [ok]) rest
      | Err err => Err err
      end
  end.

Definition collect {T E : Type} (iterable : list (Result T E))
    : Result (list T) E :=
  collect_from [] iterable.

(** ** [api/generated/models/FullUser.ts] *)

(** The JavaScript values the generated converters see: what
    [response.json()] can yield, and [undefined]. *)
#[warnings="-register-all"]
Inductive JsValue : Type :=
| JUndefined
| JNull
| JBool (b : bool)
| JNumber (z : Z)
| JString (s : string)
| JObject (fields : gmap string JsValue).

(** [value[key]] on a value that is neither [null] nor [undefined]: the
    property of an object, [undefined] when it has none, and [undefined] on
    a primitive, which has none of the keys read here. *)
Definition get_prop (v : JsValue) (key : string) : JsValue :=
  match v with
  | JObject fields => default JUndefined (fields !! key)
  | _ => JUndefined
  end.

(** A [FullUser] as the object it is at run time. *)
Definition of_FullUser (u : FullUser) : JsValue :=
  JObject (<["displayName" := JString (displayName u)]>
             (<["uuid" := JString (uuid u)]> ∅)).

(** [instanceOfFullUser(value: object)]: each key must be [in] the object
    and not [undefined]. *)
Definition instanceOfFullUser (value : gmap string JsValue) : bool :=
  match value !! "displayName" with
  | None | Some JUndefined => false
  | Some _ =>
      match value !! "uuid" with
      | None | Some JUndefined => false
      | Some _ => true
      end
  end.

(** [json == null] holds of [null] and [undefined] only. *)
Definition FullUserFromJSONTyped (json : JsValue) (ignoreDiscriminator : bool)
    : JsValue :=
  match json with
  | JUndefined | JNull => json
  | _ =>
      JObject (<["displayName" := get_prop json "display_name"]>
                 (<["uuid" := get_prop json "uuid"]> ∅))
  end.

Definition FullUserFromJSON (json : JsValue) : JsValue :=
  FullUserFromJSONTyped json false.

Definition FullUserToJSON (value : JsValue) : JsValue :=
  match value with
  | JUndefined | JNull => value
  | _ =>
      JObject (<["display_name" := get_prop value "displayName"]>
                 (<["uuid" := get_prop value "uuid"]> ∅))
  end.

(** ** [views/login/login.tsx] *)

(** What [onSubmit] does once [Api.auth.login] has settled with [o]:
    [onLogin()] on [Ok], [toast.error(err.message)] on [Err]. *)
Definition Login_onSubmit (onLogin : JS unit) (o : Settled unit) : JS unit :=
  result ← handleError o;
  Result_match result
    (fun _ => onLogin)
    (fun err => toast_show by_error (message err, no_options);; mret tt).


(** The [onLogin] that [render] gives to the login view:
    [() => { this.fetchUser(); }]. *)
Definition render_onLogin (this : nat) : JS unit := fetchUser this.


(** Whether [pattern] occurs in [s]. *)
Fixpoint occurs (pattern s : string) : bool :=
  match strip_prefix pattern s with
  | Some _ => true
  | None =>
      match s with
      | EmptyString => false
      | String _ s' => occurs pattern s'
      end
  end.

(** ** More that holds in every reachable world *)


(** An effect a callback may add to the trace of [w]: never an uncaught
    exception, and a connection only to the URL made from the origin. *)
Definition benign (w : World) (e : Effect) : Prop :=
  match e with
  | EUncaught _ => False
  | EWsConnect url => url = ws_url (origin w)
  | EGetMe _ | EConsoleError _ | EConsoleWarn _ => True
  end.

(** ** Proof support *)

Ltac js_unfold :=
  unfold mbind, JS_bind, mret, JS_ret, bind, ret, get, modify, throw,
    try_catch, await in *.

(** * Theorems *)

(** ** Reading an instance after a write *)

Lemma instance_write_user (this j : nat) (u : UserSlot) (w : World) :
  instance (write_user this u w) j
  = if decide (this = j)
    then {| state := {| user := u |}; fetching := guard w this |}
    else instance w j.
Proof.
  unfold instance, write_user, guard, instance. simpl.
  destruct (decide (this = j)) as [->|Hne].
  - rewrite lookup_insert_eq. reflexivity.
  - rewrite lookup_insert_ne by exact Hne. reflexivity.
Qed.

Lemma instance_write_fetching (this j : nat) (b : bool) (w : World) :
  instance (write_fetching this b w) j
  = if decide (this = j)
    then {| state := state (instance w this); fetching := b |}
    else instance w j.
Proof.
  unfold instance, write_fetching, instance. simpl.
  destruct (decide (this = j)) as [->|Hne].
  - rewrite lookup_insert_eq. reflexivity.
  - rewrite lookup_insert_ne by exact Hne. reflexivity.
Qed.

Lemma session_write_user (this j : nat) (u : UserSlot) (w : World) :
  session (write_user this u w) j
  = if decide (this = j) then u else session w j.
Proof.
  unfold session. rewrite instance_write_user.
  destruct (decide (this = j)); reflexivity.
Qed.

Lemma guard_write_user (this j : nat) (u : UserSlot) (w : World) :
  guard (write_user this u w) j = guard w j.
Proof.
  unfold guard. rewrite instance_write_user.
  destruct (decide (this = j)) as [->|]; reflexivity.
Qed.

Lemma session_write_fetching (this j : nat) (b : bool) (w : World) :
  session (write_fetching this b w) j = session w j.
Proof.
  unfold session. rewrite instance_write_fetching.
  destruct (decide (this = j)) as [->|]; reflexivity.
Qed.

Lemma guard_write_fetching (this j : nat) (b : bool) (w : World) :
  guard (write_fetching this b w) j
  = if decide (this = j) then b else guard w j.
Proof.
  unfold guard. rewrite instance_write_fetching.
  destruct (decide (this = j)); reflexivity.
Qed.

Lemma session_with_effect (e : Effect) (w : World) (j : nat) :
  session (with_effect e w) j = session w j.
Proof. reflexivity. Qed.

Lemma guard_with_effect (e : Effect) (w : World) (j : nat) :
  guard (with_effect e w) j = guard w j.
Proof. reflexivity. Qed.


(** ** The websocket URL *)

Lemma strip_prefix_append (p rest : string) :
  strip_prefix p (p +:+ rest) = Some rest.
Proof.
  induction p as [|a p IH]; simpl; [reflexivity|].
  rewrite Ascii.eqb_refl. exact IH.
Qed.

Lemma replace_at_start (p r rest : string) :
  replace p r (p +:+ rest) = r +:+ rest.
Proof.
  destruct p as [|a p]; destruct rest as [|c rest]; simpl;
    rewrite ?Ascii.eqb_refl, ?strip_prefix_append; reflexivity.
Qed.

(** C9. The URL given to [WS.connect] is the page's origin with the scheme
    substituted: an origin [http://rest] gives [ws://rest/api/v1/ws] and an
    origin [https://rest] gives [wss://rest/api/v1/ws], the rest of the
    origin unchanged; and that URL, computed from [window.location.origin],
    is the one the success branch of the fetch callback connects to. *)
Theorem ws_url_scheme_substitution (rest : string) :
  ws_url ("http://" +:+ rest) = "ws://" +:+ rest +:+ "/api/v1/ws" /\
  ws_url ("https://" +:+ rest) = "wss://" +:+ rest +:+ "/api/v1/ws" /\
  forall (w : World) (this : nat) (u : FullUser),
    trace (run (fetchUser_then this (Ok u)) w)
    = EWsConnect (ws_url (origin w)) :: trace w.
Proof.
  split; [|split].
  - unfold ws_url.
    change ("http://" +:+ rest) with ("http" +:+ ("://" +:+ rest)).
    rewrite replace_at_start. reflexivity.
  - unfold ws_url.
    change ("https://" +:+ rest) with ("http" +:+ ("s://" +:+ rest)).
    rewrite replace_at_start. reflexivity.
  - intros w this u. reflexivity.
Qed.

(** ** [handleError] *)

Lemma parseError_fulfils (response : Response) (w : World) :
  exists (e : ApiError) (w' : World),
    parseError response w = Normal e w' /\
    match body_json response with
    | Some v => e = v /\ w' = w
    | None => status_code e = StatusCode.JsonDecodeError
    end /\
    instances w' = instances w /\ pending w' = pending w /\
    toasts w' = toasts w /\ next_toast w' = next_toast w /\
    listeners w' = listeners w /\ USER_PROVIDER w' = USER_PROVIDER w /\
    origin w' = origin w /\
    filter (fun e => is_connect e) (trace w') = filter (fun e => is_connect e) (trace w) /\
    filter (fun e => is_getMe e) (trace w') = filter (fun e => is_getMe e) (trace w).
Proof.
  unfold parseError, Response_json.
  destruct (body_json response) as [v|]; js_unfold; simpl;
    eexists; eexists; (split; [reflexivity|]); repeat split; reflexivity.
Qed.

(** What [handleError] leaves untouched: everything but the console. *)
Lemma handleError_fulfils {T : Type} (promise : Settled T) (w : World) :
  exists (r : Result T ApiError) (w' : World),
    handleError promise w = Normal r w' /\
    instances w' = instances w /\ pending w' = pending w /\
    toasts w' = toasts w /\ next_toast w' = next_toast w /\
    listeners w' = listeners w /\ USER_PROVIDER w' = USER_PROVIDER w /\
    origin w' = origin w /\
    filter (fun e => is_connect e) (trace w') = filter (fun e => is_connect e) (trace w) /\
    filter (fun e => is_getMe e) (trace w') = filter (fun e => is_getMe e) (trace w).
Proof.
  destruct promise as [v|reason].
  - exists (Ok v), w. repeat split; reflexivity.
  - destruct reason as [response|field msg|msg|msg].
    + destruct (parseError_fulfils response w)
        as (e & w' & He & _ & Hrest).
      exists (Err e), w'. split; [|exact Hrest].
      unfold handleError. js_unfold. simpl. rewrite He. reflexivity.
    + eexists; eexists; (split; [reflexivity|]); repeat split; reflexivity.
    + eexists; eexists; (split; [reflexivity|]); repeat split; reflexivity.
    + eexists; eexists; (split; [reflexivity|]); repeat split; reflexivity.
Qed.



(** ** [inspectError] *)

(** C3. [inspectError] on an error whose code is the not-authenticated
    code (1000) sets the registered controller's Session to
    [unauthenticated] whatever it was, without a request, a toast or a
    change of the guard; with no controller registered it logs a warning
    and does nothing else; on any other code it does nothing at all; and it
    never throws. *)
Theorem inspectError_spec (error : ApiError) (w : World) :
  (status_code error = StatusCode.Unauthenticated ->
   forall q : nat, USER_PROVIDER w = Some q ->
     exists w' : World,
       inspectError error w = Normal tt w' /\
       session w' q = unauthenticated /\
       guard w' q = guard w q /\
       pending w' = pending w /\ trace w' = trace w /\
       toasts w' = toasts w /\ USER_PROVIDER w' = Some q /\
       forall j : nat, j <> q -> instance w' j = instance w j) /\
  (status_code error = StatusCode.Unauthenticated ->
   USER_PROVIDER w = None ->
     inspectError error w
     = Normal tt (with_effect
         (EConsoleWarn "inspectError has been called without a UserProvider") w)) /\
  (status_code error <> StatusCode.Unauthenticated ->
     inspectError error w = Normal tt w) /\
  (exists w' : World, inspectError error w = Normal tt w').
Proof.
  unfold inspectError. split; [|split; [|split]].
  - intros Hc q Hq. apply Z.eqb_eq in Hc. rewrite Hc. js_unfold. rewrite Hq.
    exists (write_user q unauthenticated w). split; [reflexivity|].
    split; [rewrite session_write_user, decide_True by reflexivity; reflexivity|].
    split; [apply guard_write_user|].
    do 3 (split; [reflexivity|]). split; [exact Hq|].
    intros j Hj. rewrite instance_write_user.
    rewrite decide_False by congruence. reflexivity.
  - intros Hc Hn. apply Z.eqb_eq in Hc. rewrite Hc. js_unfold. rewrite Hn.
    reflexivity.
  - intros Hc. apply Z.eqb_neq in Hc. rewrite Hc. reflexivity.
  - destruct (status_code error =? StatusCode.Unauthenticated)%Z.
    + js_unfold. destruct (USER_PROVIDER w); eexists; reflexivity.
    + eexists; reflexivity.
Qed.

Lemma inspectError_spec_witness :
  (exists w' : World,
     inspectError no_session mounted = Normal tt w' /\
     session w' 0%nat = unauthenticated /\
     guard w' 0%nat = guard mounted 0%nat /\
     pending w' = pending mounted /\ trace w' = trace mounted /\
     toasts w' = toasts mounted /\ USER_PROVIDER w' = Some 0%nat /\
     forall j : nat, j <> 0%nat -> instance w' j = instance mounted j) /\
  inspectError no_session (init "")
  = Normal tt (with_effect
      (EConsoleWarn "inspectError has been called without a UserProvider")
      (init "")) /\
  inspectError not_found mounted = Normal tt mounted.
Proof.
  split; [|split].
  - apply (proj1 (inspectError_spec no_session mounted)); reflexivity.
  - apply (proj1 (proj2 (inspectError_spec no_session (init ""))));
      reflexivity.
  - apply (proj1 (proj2 (proj2 (inspectError_spec not_found mounted)))).
    unfold not_found, StatusCode.Unauthenticated. simpl. lia.
Defined.

(** ** The singleton slot *)

(** C5, as the specification states it, fails: a second controller mounted
    while the first is registered is not inert, it sends its own request
    (and shows its own toast and adds its own listener). *)
Lemma surplus_mount_not_inert :
  USER_PROVIDER mounted = Some 0%nat /\
  ~ surplus_mount_inert mounted 0%nat 1%nat.
Proof.
  split; [reflexivity|].
  intros (w' & Hrun & _ & _ & Hp & _).
  assert (Hw : w' = run (componentDidMount 1%nat) mounted)
    by (unfold run; rewrite Hrun; reflexivity).
  subst w'. vm_compute in Hp. discriminate Hp.
Qed.

(** C5, amended.  Mounting a second controller while a first one is
    registered leaves the first registered and does not throw; the second
    logs the conflict and only skips the registration: it still runs
    [fetchUser] (a request of its own unless its guard is set), shows its
    own persistent toast and adds its own listener.  On unmount a
    controller clears the slot exactly when it occupies it and leaves the
    slot as it is otherwise. *)
Theorem singleton_first_wins (w : World) (first this : nat) :
  (USER_PROVIDER w = Some first -> first <> this ->
   exists w' : World,
     componentDidMount this w = Normal tt w' /\
     USER_PROVIDER w' = Some first /\
     (exists rest : list Effect,
        trace w'
        = EConsoleError "Two instances of UserProvider are used" :: rest) /\
     toasts w'
     = mkToast (next_toast w) by_warn (fst errorToast) (snd errorToast)
       :: toasts w /\
     listeners w' = listeners w ++ [Some (next_toast w)] /\
     (guard w this = false ->
        pending w' = pending w ++ [this] /\
        requests_issued w' = S (requests_issued w))) /\
  (exists w' : World,
     componentWillUnmount this w = Normal tt w' /\
     USER_PROVIDER w'
     = if decide (USER_PROVIDER w = Some this) then None else USER_PROVIDER w).
Proof.
  split.
  - intros Hreg Hne. unfold componentDidMount, fetchUser. js_unfold.
    destruct (guard w this) eqn:Hg; simpl; rewrite Hreg;
      rewrite decide_False by exact Hne; simpl;
      eexists; (split; [reflexivity|]); simpl;
      (split; [exact Hreg|]); (split; [eexists; reflexivity|]);
      (split; [reflexivity|]); (split; [reflexivity|]);
      intros Hf; try discriminate Hf.
    split; reflexivity.
  - unfold componentWillUnmount. js_unfold.
    destruct (USER_PROVIDER w) as [q|] eqn:Hq.
    + destruct (decide (q = this)) as [->|Hne].
      * eexists; split; [reflexivity|]. simpl.
        rewrite decide_True by reflexivity. reflexivity.
      * eexists; split; [reflexivity|]. simpl.
        rewrite decide_False by congruence. exact Hq.
    + eexists; split; [reflexivity|]. simpl.
      destruct (decide (None = Some this)) as [e|_];
        [discriminate e|exact Hq].
Qed.

Lemma singleton_first_wins_witness :
  exists w' : World,
    componentDidMount 1%nat mounted = Normal tt w' /\
    USER_PROVIDER w' = Some 0%nat /\
    (exists rest : list Effect,
       trace w'
       = EConsoleError "Two instances of UserProvider are used" :: rest) /\
    toasts w'
    = mkToast (next_toast mounted) by_warn (fst errorToast) (snd errorToast)
      :: toasts mounted /\
    listeners w' = listeners mounted ++ [Some (next_toast mounted)] /\
    (guard mounted 1%nat = false ->
       pending w' = pending mounted ++ [1%nat] /\
       requests_issued w' = S (requests_issued mounted)).
Proof.
  apply (proj1 (singleton_first_wins mounted 0%nat 1%nat)).
  - reflexivity.
  - lia.
Defined.

(** ** [fetchUser] and its callback *)

Lemma fetchUser_then_eq (this : nat) (result : Result FullUser ApiError)
    (w : World) :
  fetchUser_then this result w = Normal tt (after_fetch this result w).
Proof.
  unfold fetchUser_then, after_fetch. js_unfold.
  destruct result as [u|e]; simpl; [reflexivity|].
  destruct (status_code e =? StatusCode.Unauthenticated)%Z; reflexivity.
Qed.

Lemma fetchUser_guarded (this : nat) (w : World) :
  guard w this = true -> fetchUser this w = Normal tt w.
Proof. intros Hg. unfold fetchUser. js_unfold. rewrite Hg. reflexivity. Qed.

Lemma fetchUser_issues (this : nat) (w : World) :
  guard w this = false ->
  fetchUser this w = Normal tt (after_fetchUser this w).
Proof. intros Hg. unfold fetchUser. js_unfold. rewrite Hg. reflexivity. Qed.

Lemma session_after_fetchUser (this j : nat) (w : World) :
  session (after_fetchUser this w) j
  = if decide (this = j) then loading else session w j.
Proof.
  unfold after_fetchUser.
  change (session (write_user this loading (write_fetching this true w)) j
          = if decide (this = j) then loading else session w j).
  rewrite session_write_user, session_write_fetching. reflexivity.
Qed.

Lemma guard_after_fetchUser (this j : nat) (w : World) :
  guard (after_fetchUser this w) j
  = if decide (this = j) then true else guard w j.
Proof.
  unfold after_fetchUser.
  change (guard (write_user this loading (write_fetching this true w)) j
          = if decide (this = j) then true else guard w j).
  rewrite guard_write_user, guard_write_fetching. reflexivity.
Qed.

Lemma guard_after_fetch (this j : nat) (result : Result FullUser ApiError)
    (w : World) :
  guard (after_fetch this result w) j
  = if decide (this = j) then false else guard w j.
Proof.
  unfold after_fetch. rewrite guard_write_fetching.
  destruct (decide (this = j)); [reflexivity|].
  destruct result as [u|e].
  - rewrite guard_write_user. reflexivity.
  - destruct (status_code e =? StatusCode.Unauthenticated)%Z.
    + apply guard_write_user.
    + reflexivity.
Qed.

Lemma session_after_fetch (this j : nat) (result : Result FullUser ApiError)
    (w : World) :
  session (after_fetch this result w) j
  = if decide (this = j)
    then match result with
         | Ok u => full u
         | Err e => if (status_code e =? StatusCode.Unauthenticated)%Z
                    then unauthenticated else session w j
         end
    else session w j.
Proof.
  unfold after_fetch. rewrite session_write_fetching.
  destruct result as [u|e].
  - rewrite session_write_user. reflexivity.
  - destruct (status_code e =? StatusCode.Unauthenticated)%Z.
    + rewrite session_write_user. reflexivity.
    + destruct (decide (this = j)); reflexivity.
Qed.

(** A settling request: [handleError] fulfils with some [result], touching
    the console only, and the callback of the waiting instance runs. *)
Lemma complete_step (w : World) (k this : nat) (o : Settled FullUser) :
  pending w !! k = Some this ->
  exists (result : Result FullUser ApiError) (w1 : World),
    handleError o (with_pending (delete k) w) = Normal result w1 /\
    step (Complete k o) w = after_fetch this result w1 /\
    instances w1 = instances w /\ pending w1 = delete k (pending w) /\
    toasts w1 = toasts w /\ next_toast w1 = next_toast w /\
    listeners w1 = listeners w /\ USER_PROVIDER w1 = USER_PROVIDER w /\
    origin w1 = origin w /\
    filter (fun e => is_connect e) (trace w1) = filter (fun e => is_connect e) (trace w) /\
    filter (fun e => is_getMe e) (trace w1) = filter (fun e => is_getMe e) (trace w).
Proof.
  intros Hk.
  destruct (handleError_fulfils o (with_pending (delete k) w))
    as (result & w1 & Hh & Hrest).
  exists result, w1. split; [exact Hh|]. split; [|exact Hrest].
  unfold step, run, handler, complete. js_unfold. rewrite Hk.
  simpl. rewrite Hh. rewrite fetchUser_then_eq. reflexivity.
Qed.

Lemma complete_stale (w : World) (k : nat) (o : Settled FullUser) :
  pending w !! k = None -> step (Complete k o) w = w.
Proof.
  intros Hk. unfold step, run, handler, complete. js_unfold. rewrite Hk.
  reflexivity.
Qed.

Lemma instance_ext (w w' : World) (j : nat) :
  instances w' = instances w -> instance w' j = instance w j.
Proof. unfold instance. intros ->. reflexivity. Qed.

Lemma guard_ext (w w' : World) (j : nat) :
  instances w' = instances w -> guard w' j = guard w j.
Proof. unfold guard. intros H. rewrite (instance_ext _ _ _ H). reflexivity. Qed.

Lemma session_ext (w w' : World) (j : nat) :
  instances w' = instances w -> session w' j = session w j.
Proof. unfold session. intros H. rewrite (instance_ext _ _ _ H). reflexivity. Qed.



(** C7. A fetch result that is an error with a code other than 1000 is
    shown to the user, its message verbatim, in a toast that closes by
    itself; nothing is thrown, nothing else is logged, and Session is left
    where it was, so a Session that was [loading] stays [loading] and is
    not moved to [unauthenticated].  An error with code 1000 opens no
    toast: Session becomes [unauthenticated] and [render] returns the login
    view. *)
Theorem fetch_error_surfaced (w : World) (this : nat) (e : ApiError) :
  (status_code e <> StatusCode.Unauthenticated ->
   exists w' : World,
     fetchUser_then this (Err e) w = Normal tt w' /\
     toasts w' = error_toast (next_toast w) e :: toasts w /\
     toast_content (error_toast (next_toast w) e) = message e /\
     ~ persistent (error_toast (next_toast w) e) /\
     trace w' = trace w /\
     session w' this = session w this /\
     (session w this = loading ->
        session w' this = loading /\
        render (instance w' this) = LoadingView)) /\
  (status_code e = StatusCode.Unauthenticated ->
   exists w' : World,
     fetchUser_then this (Err e) w = Normal tt w' /\
     toasts w' = toasts w /\
     trace w' = trace w /\
     session w' this = unauthenticated /\
     render (instance w' this) = LoginView).
Proof.
  split.
  - intros Hc. apply Z.eqb_neq in Hc.
    exists (after_fetch this (Err e) w).
    split; [apply fetchUser_then_eq|].
    assert (Hs : session (after_fetch this (Err e) w) this = session w this).
    { rewrite session_after_fetch, Hc.
      destruct (decide (this = this)); reflexivity. }
    unfold after_fetch. rewrite Hc.
    split; [reflexivity|]. split; [reflexivity|].
    split; [unfold persistent; simpl; discriminate|].
    split; [reflexivity|].
    unfold after_fetch in Hs. rewrite Hc in Hs.
    split; [exact Hs|].
    intros Hl. split; [rewrite Hs; exact Hl|].
    unfold render. unfold session in Hs, Hl. rewrite Hs, Hl. reflexivity.
  - intros Hc. apply Z.eqb_eq in Hc.
    exists (after_fetch this (Err e) w).
    split; [apply fetchUser_then_eq|].
    assert (Hs : session (after_fetch this (Err e) w) this = unauthenticated).
    { rewrite session_after_fetch, Hc, decide_True by reflexivity.
      reflexivity. }
    unfold after_fetch. rewrite Hc.
    split; [reflexivity|]. split; [reflexivity|].
    unfold after_fetch in Hs. rewrite Hc in Hs.
    split; [exact Hs|].
    unfold render. unfold session in Hs. rewrite Hs. reflexivity.
Qed.

Lemma fetch_error_surfaced_witness :
  (exists w' : World,
     fetchUser_then 0%nat (Err not_found) mounted = Normal tt w' /\
     toasts w' = error_toast (next_toast mounted) not_found :: toasts mounted /\
     toast_content (error_toast (next_toast mounted) not_found)
     = message not_found /\
     ~ persistent (error_toast (next_toast mounted) not_found) /\
     trace w' = trace mounted /\
     session w' 0%nat = session mounted 0%nat /\
     (session mounted 0%nat = loading ->
        session w' 0%nat = loading /\
        render (instance w' 0%nat) = LoadingView)) /\
  (exists w' : World,
     fetchUser_then 0%nat (Err no_session) mounted = Normal tt w' /\
     toasts w' = toasts mounted /\
     trace w' = trace mounted /\
     session w' 0%nat = unauthenticated /\
     render (instance w' 0%nat) = LoginView).
Proof.
  split.
  - apply (proj1 (fetch_error_surfaced mounted 0%nat not_found)).
    unfold not_found, StatusCode.Unauthenticated. simpl. lia.
  - apply (proj2 (fetch_error_surfaced mounted 0%nat no_session)).
    reflexivity.
Defined.

(** ** Mounting *)

Lemma componentDidMount_fulfils (this : nat) (w : World) :
  exists w' : World,
    componentDidMount this w = Normal tt w' /\
    toasts w' = connecting_toast (next_toast w) :: toasts w /\
    next_toast w' = S (next_toast w) /\
    listeners w' = listeners w ++ [Some (next_toast w)] /\
    origin w' = origin w /\
    filter (fun e => is_connect e) (trace w')
    = filter (fun e => is_connect e) (trace w) /\
    instances w'
    = instances (if guard w this then w else after_fetchUser this w) /\
    pending w' = (if guard w this then pending w else pending w ++ [this]) /\
    USER_PROVIDER w'
    = match USER_PROVIDER w with Some q => Some q | None => Some this end.
Proof.
  unfold componentDidMount, fetchUser. js_unfold.
  destruct (guard w this) eqn:Hg; simpl;
    destruct (USER_PROVIDER w) as [q|] eqn:Hq; simpl;
    try destruct (decide (q = this)); simpl;
    eexists; (split; [reflexivity|]); simpl;
    repeat (split; [reflexivity|]); try reflexivity; exact Hq.
Qed.

(** C10. Mounting a controller opens the persistent "Connecting
    websocket..." toast in every case: before the request [fetchUser] has
    just sent has settled, and without [WS.connect] having been called.
    The toast is still on screen when that request then settles with the
    not-authenticated error, Session being [unauthenticated] and
    [WS.connect] never called. *)
Theorem mount_shows_connecting_toast (w : World) (this : nat) :
  exists w' : World,
    componentDidMount this w = Normal tt w' /\
    toasts w' = connecting_toast (next_toast w) :: toasts w /\
    toast_content (connecting_toast (next_toast w))
    = "Connecting websocket..." /\
    persistent (connecting_toast (next_toast w)) /\
    ws_connects w' = ws_connects w /\
    (guard w this = false ->
       session w' this = loading /\ pending w' = pending w ++ [this]) /\
    (forall (k : nat) (e : ApiError),
       pending w' !! k = Some this ->
       status_code e = StatusCode.Unauthenticated ->
       let w'' := step (Complete k (error_response e)) w' in
       session w'' this = unauthenticated /\
       ws_connects w'' = ws_connects w /\
       toasts w'' = connecting_toast (next_toast w) :: toasts w).
Proof.
  destruct (componentDidMount_fulfils this w)
    as (w' & Hrun & Ht & Hn & Hl & Ho & Hc & Hi & Hp & Hu).
  exists w'. split; [exact Hrun|]. split; [exact Ht|].
  split; [reflexivity|]. split; [reflexivity|].
  split; [unfold ws_connects; rewrite Hc; reflexivity|].
  split.
  - intros Hg. rewrite Hg in Hi, Hp. split; [|exact Hp].
    rewrite (session_ext _ _ this Hi), session_after_fetchUser.
    rewrite decide_True by reflexivity. reflexivity.
  - intros k e Hk He. simpl. apply Z.eqb_eq in He.
    destruct (complete_step w' k this (error_response e) Hk)
      as (result & w1 & Hh & -> & Hi1 & Hp1 & Ht1 & Hn1 & Hl1 & Hu1 & Ho1
          & Hc1 & Hg1).
    assert (Hres : result = Err e).
    { unfold error_response, handleError, parseError, Response_json in Hh.
      js_unfold. simpl in Hh. injection Hh as <- _. reflexivity. }
    subst result. split; [|split].
    + rewrite session_after_fetch, He, decide_True by reflexivity.
      reflexivity.
    + unfold ws_connects, after_fetch. rewrite He. simpl.
      rewrite Hc1, Hc. reflexivity.
    + unfold after_fetch. rewrite He. simpl. rewrite Ht1. exact Ht.
Qed.

Lemma mount_shows_connecting_toast_witness :
  exists w' : World,
    componentDidMount 0%nat (init "") = Normal tt w' /\
    toasts w' = [connecting_toast 0%nat] /\
    persistent (connecting_toast 0%nat) /\
    ws_connects w' = 0%nat /\
    session w' 0%nat = loading /\
    pending w' = [0%nat] /\
    session (step (Complete 0%nat (error_response no_session)) w') 0%nat
    = unauthenticated /\
    ws_connects (step (Complete 0%nat (error_response no_session)) w')
    = 0%nat /\
    toasts (step (Complete 0%nat (error_response no_session)) w')
    = [connecting_toast 0%nat].
Proof.
  destruct (mount_shows_connecting_toast (init "") 0%nat)
    as (w' & Hrun & Ht & _ & Hp & Hc & Hg & Hk).
  destruct (Hg eq_refl) as [Hs Hpend].
  assert (H0 : pending w' !! 0%nat = Some 0%nat)
    by (rewrite Hpend; reflexivity).
  destruct (Hk 0%nat no_session H0 eq_refl) as (Hs' & Hc' & Ht').
  exists w'. repeat (split; [assumption|]). assumption.
Defined.

(** ** Events that do not concern the controllers *)

Lemma state_listener_frame (k : nat) (s : ConnectionState) (w : World) :
  exists w' : World,
    state_listener k s w = Normal tt w' /\
    instances w' = instances w /\ pending w' = pending w /\
    trace w' = trace w /\ USER_PROVIDER w' = USER_PROVIDER w /\
    origin w' = origin w /\
    length (listeners w') = length (listeners w).
Proof.
  unfold state_listener, get_runningToast, set_runningToast, toast_show,
    toast_dismiss.
  js_unfold.
  destruct s; destruct (default None (listeners w !! k)); simpl;
    eexists; (split; [reflexivity|]); simpl;
    rewrite ?length_insert; repeat split; reflexivity.
Qed.

Lemma forEach_listener_frame (s : ConnectionState) (ks : list nat) (w : World) :
  exists w' : World,
    forEach (fun k => state_listener k s) ks w = Normal tt w' /\
    instances w' = instances w /\ pending w' = pending w /\
    trace w' = trace w /\ USER_PROVIDER w' = USER_PROVIDER w /\
    origin w' = origin w /\
    length (listeners w') = length (listeners w).
Proof.
  revert w. induction ks as [|k ks IH]; intros w.
  - exists w. repeat split; reflexivity.
  - destruct (state_listener_frame k s w)
      as (w1 & H1 & Hi1 & Hp1 & Ht1 & Hu1 & Ho1 & Hl1).
    destruct (IH w1) as (w2 & H2 & Hi2 & Hp2 & Ht2 & Hu2 & Ho2 & Hl2).
    exists w2. split.
    + simpl. unfold mbind, JS_bind, bind. rewrite H1. exact H2.
    + repeat split; congruence.
Qed.

Lemma WsState_frame (s : ConnectionState) (w : World) :
  instances (step (WsState s) w) = instances w /\
  pending (step (WsState s) w) = pending w /\
  trace (step (WsState s) w) = trace w /\
  USER_PROVIDER (step (WsState s) w) = USER_PROVIDER w.
Proof.
  unfold step, run, handler, WS_emit_state. js_unfold.
  destruct (forEach_listener_frame s (seq 0 (length (listeners w))) w)
    as (w' & H & Hi & Hp & Ht & Hu & _).
  unfold mbind, JS_bind, bind in H. rewrite H. auto.
Qed.

(** ** The monitor *)




Lemma guard_init (o : string) (this : nat) : guard (init o) this = false.
Proof. unfold guard, instance, init. simpl. rewrite lookup_empty. reflexivity. Qed.



(** ** The guard invariant *)

Lemma guard_inv_ext (w w' : World) :
  instances w' = instances w -> pending w' = pending w ->
  guard_inv w -> guard_inv w'.
Proof.
  intros Hi Hp (Hnd & Hg & Hs). unfold guard_inv. rewrite Hp.
  split; [exact Hnd|]. split.
  - intros j Hj. rewrite (guard_ext _ _ j Hi). apply Hg, Hj.
  - intros j u Hj. rewrite (guard_ext _ _ j Hi) in Hj.
    rewrite (session_ext _ _ j Hi). apply Hs, Hj.
Qed.

Lemma guard_inv_init (o : string) : guard_inv (init o).
Proof.
  split; [apply NoDup_nil_2|]. split.
  - intros j Hj. simpl in Hj. inversion Hj.
  - intros j u Hj. rewrite guard_init in Hj. discriminate Hj.
Qed.

Lemma guard_inv_after_fetchUser (this : nat) (w : World) :
  guard w this = false -> guard_inv w -> guard_inv (after_fetchUser this w).
Proof.
  intros Hf (Hnd & Hg & Hs). split; [|split].
  - change (NoDup (pending w ++ [this])).
    apply NoDup_app. split; [exact Hnd|]. split; [|apply NoDup_singleton].
    intros j Hj Hj'. apply list_elem_of_singleton in Hj'. subst j.
    rewrite (Hg _ Hj) in Hf. discriminate Hf.
  - intros j Hj. change (j ∈ pending w ++ [this]) in Hj.
    rewrite guard_after_fetchUser.
    destruct (decide (this = j)); [reflexivity|].
    apply elem_of_app in Hj as [Hj|Hj]; [apply Hg, Hj|].
    apply list_elem_of_singleton in Hj. congruence.
  - intros j u. rewrite guard_after_fetchUser, session_after_fetchUser.
    destruct (decide (this = j)); [discriminate|]. apply Hs.
Qed.

Lemma pending_after_fetch (this : nat) (result : Result FullUser ApiError)
    (w : World) :
  pending (after_fetch this result w) = pending w.
Proof.
  unfold after_fetch. destruct result as [u|e]; [reflexivity|].
  destruct (status_code e =? StatusCode.Unauthenticated)%Z; reflexivity.
Qed.

Lemma NoDup_delete_lookup (l : list nat) (k j : nat) :
  NoDup l -> l !! k = Some j -> j ∉ delete k l.
Proof.
  intros Hnd Hk Hin.
  rewrite <- (take_drop_middle l k j Hk) in Hnd.
  rewrite delete_take_drop in Hin.
  apply NoDup_app in Hnd as (_ & Hdisj & Hnd2).
  apply NoDup_cons in Hnd2 as [Hnot _].
  apply elem_of_app in Hin as [Hin|Hin].
  - apply (Hdisj j Hin). left.
  - exact (Hnot Hin).
Qed.

Lemma guard_inv_after_fetch (this k : nat) (result : Result FullUser ApiError)
    (w w1 : World) :
  pending w !! k = Some this ->
  instances w1 = instances w -> pending w1 = delete k (pending w) ->
  guard_inv w -> guard_inv (after_fetch this result w1).
Proof.
  intros Hk Hi Hp (Hnd & Hg & Hs).
  unfold guard_inv. rewrite pending_after_fetch, Hp.
  split; [eapply sublist_NoDup; [exact Hnd|apply sublist_delete]|]. split.
  - intros j Hj. rewrite guard_after_fetch.
    destruct (decide (this = j)) as [<-|Hne].
    + exfalso. exact (NoDup_delete_lookup _ _ _ Hnd Hk Hj).
    + rewrite (guard_ext _ _ j Hi). apply Hg.
      exact (list_elem_of_delete_inv _ _ _ Hj).
  - intros j u. rewrite guard_after_fetch, session_after_fetch.
    destruct (decide (this = j)); [discriminate|].
    rewrite (guard_ext _ _ j Hi), (session_ext _ _ j Hi). apply Hs.
Qed.

Lemma guard_inv_step (ev : Event) (w : World) :
  guard_inv w -> guard_inv (step ev w).
Proof.
  intros Hinv. destruct ev as [this|this|this|k o|e|s|id].
  - destruct (componentDidMount_fulfils this w)
      as (w' & Hrun & _ & _ & _ & _ & _ & Hi & Hp & _).
    unfold step, run, handler. rewrite Hrun.
    destruct (guard w this) eqn:Hg.
    + exact (guard_inv_ext _ _ Hi Hp Hinv).
    + apply (guard_inv_ext (after_fetchUser this w)); [exact Hi|exact Hp|].
      apply guard_inv_after_fetchUser; assumption.
  - unfold step, run, handler, componentWillUnmount. js_unfold.
    destruct (USER_PROVIDER w) as [q|]; [destruct (decide (q = this))|];
      exact Hinv.
  - unfold step, run, handler.
    destruct (guard w this) eqn:Hg.
    + rewrite (fetchUser_guarded _ _ Hg). exact Hinv.
    + rewrite (fetchUser_issues _ _ Hg).
      apply guard_inv_after_fetchUser; assumption.
  - destruct (pending w !! k) as [this|] eqn:Hk.
    + destruct (complete_step w k this o Hk)
        as (result & w1 & _ & -> & Hi & Hp & _).
      exact (guard_inv_after_fetch _ _ _ _ _ Hk Hi Hp Hinv).
    + rewrite (complete_stale _ _ _ Hk). exact Hinv.
  - unfold step, run, handler, inspectError. js_unfold.
    destruct (status_code e =? StatusCode.Unauthenticated)%Z; [|exact Hinv].
    destruct (USER_PROVIDER w) as [q|]; [|exact Hinv].
    simpl. destruct Hinv as (Hnd & Hg & Hs).
    split; [exact Hnd|]. split.
    + intros j Hj. rewrite guard_write_user. apply Hg, Hj.
    + intros j u. rewrite guard_write_user, session_write_user.
      destruct (decide (q = j)); [discriminate|]. apply Hs.
  - destruct (WsState_frame s w) as (Hi & Hp & _).
    exact (guard_inv_ext _ _ Hi Hp Hinv).
  - exact Hinv.
Qed.

Lemma reachable_guard_inv (w : World) : reachable w -> guard_inv w.
Proof.
  induction 1 as [o|w ev _ IH].
  - apply guard_inv_init.
  - apply guard_inv_step, IH.
Qed.

(** ** The state machine *)





Lemma reachable_mounted : reachable mounted.
Proof. apply reachable_step, reachable_init. Qed.

Lemma reachable_signed_in : reachable signed_in.
Proof. apply reachable_step, reachable_mounted. Qed.




(** The two other moves outside the table happen as well. *)
Example signal_while_loading :
  session mounted 0%nat = loading /\
  session (step (InspectError no_session) mounted) 0%nat = unauthenticated.
Proof. split; reflexivity. Qed.

Example success_after_signal :
  session (step (InspectError no_session) mounted) 0%nat = unauthenticated /\
  session (steps [InspectError no_session; Complete 0%nat (Fulfilled alice)]
             mounted) 0%nat
  = full alice.
Proof. split; reflexivity. Qed.

(** ** The toast invariant *)

Section ToastContainer.

Variables (ts : list Toast) (n : nat) (ls : list (option nat)).
Hypothesis Hok : toasts_ok ts n ls.

Lemma fresh_id_unused : n ∉ toast_id <$> ts.
Proof.
  destruct Hok as (Hlt & _ & _). intros Hin.
  apply list_elem_of_fmap in Hin as (t & Hn & Ht).
  rewrite Forall_forall in Hlt. specialize (Hlt t Ht). lia.
Qed.

Lemma fmap_filter_NoDup (P : Toast -> Prop) `{!forall t, Decision (P t)} :
  NoDup (toast_id <$> filter P ts).
Proof.
  destruct Hok as (_ & Hnd & _).
  clear Hok. induction ts as [|t l IH]; [exact Hnd|].
  rewrite fmap_cons in Hnd. apply NoDup_cons in Hnd as [Hnot Hnd].
  rewrite filter_cons. destruct (decide (P t)); [|apply IH, Hnd].
  rewrite fmap_cons. apply NoDup_cons. split; [|apply IH, Hnd].
  intros Hin. apply Hnot.
  apply list_elem_of_fmap in Hin as (t' & Heq & Ht').
  apply list_elem_of_fmap. exists t'. split; [exact Heq|].
  apply list_elem_of_filter in Ht' as [_ Ht']. exact Ht'.
Qed.

Lemma running_NoDup : NoDup (running ls).
Proof.
  destruct Hok as (_ & _ & Hperm). rewrite <- Hperm.
  apply fmap_filter_NoDup.
Qed.

(** [toast.error(message)] and [toast.success]: one more toast, with a
    timeout. *)
Lemma ok_show_transient (t : Toast) :
  toast_id t = n -> ~ persistent t -> toasts_ok (t :: ts) (S n) ls.
Proof.
  intros Hid Hnp. pose proof fresh_id_unused as Hfresh.
  destruct Hok as (Hlt & Hnd & Hperm). split; [|split].
  - apply Forall_cons. split; [lia|].
    eapply Forall_impl; [exact Hlt|]. simpl. intros; lia.
  - rewrite fmap_cons, Hid. apply NoDup_cons. split; assumption.
  - rewrite filter_cons_False by exact Hnp. exact Hperm.
Qed.

(** [componentDidMount]: a persistent toast and a new listener holding
    it. *)
Lemma ok_show_and_listen (t : Toast) :
  toast_id t = n -> persistent t ->
  toasts_ok (t :: ts) (S n) (ls ++ [Some n]).
Proof.
  intros Hid Hp. pose proof fresh_id_unused as Hfresh.
  destruct Hok as (Hlt & Hnd & Hperm). split; [|split].
  - apply Forall_cons. split; [lia|].
    eapply Forall_impl; [exact Hlt|]. simpl. intros; lia.
  - rewrite fmap_cons, Hid. apply NoDup_cons. split; assumption.
  - rewrite filter_cons_True by exact Hp. rewrite fmap_cons, Hid.
    unfold running. rewrite omap_app. simpl.
    rewrite Hperm. unfold running.
    rewrite <- Permutation_middle, app_nil_r. reflexivity.
Qed.

(** The listener's default branch with [runningToast === null]. *)
Lemma ok_show_and_hold (t : Toast) (k : nat) :
  ls !! k = Some None -> toast_id t = n -> persistent t ->
  toasts_ok (t :: ts) (S n) (<[k := Some n]> ls).
Proof.
  intros Hk Hid Hp. pose proof fresh_id_unused as Hfresh.
  destruct Hok as (Hlt & Hnd & Hperm). split; [|split].
  - apply Forall_cons. split; [lia|].
    eapply Forall_impl; [exact Hlt|]. simpl. intros; lia.
  - rewrite fmap_cons, Hid. apply NoDup_cons. split; assumption.
  - rewrite filter_cons_True by exact Hp. rewrite fmap_cons, Hid.
    rewrite Hperm. unfold running.
    rewrite insert_take_drop by exact (lookup_lt_Some _ _ _ Hk).
    rewrite <- (take_drop_middle ls k None Hk) at 1.
    rewrite !omap_app. simpl. apply Permutation_middle.
Qed.

Lemma filter_other_ids (tid : nat) (l : list nat) :
  tid ∉ l -> filter (fun x => x <> tid) l = l.
Proof.
  induction l as [|x l IH]; intros Hnot; [reflexivity|].
  apply not_elem_of_cons in Hnot as [Hne Hnot].
  rewrite filter_cons_True by congruence. rewrite IH by exact Hnot.
  reflexivity.
Qed.

Lemma persistent_ids_without (tid : nat) (l : list Toast) :
  toast_id <$> filter persistent (filter (fun t => toast_id t <> tid) l)
  = filter (fun x => x <> tid) (toast_id <$> filter persistent l).
Proof.
  induction l as [|t l IH]; [reflexivity|].
  rewrite (filter_cons (fun t => toast_id t <> tid)).
  rewrite (filter_cons persistent t l).
  destruct (decide (toast_id t <> tid)) as [Hne|Heq];
    destruct (decide (persistent t)) as [Hp|Hnp].
  - rewrite filter_cons_True by exact Hp. rewrite !fmap_cons.
    rewrite filter_cons_True by exact Hne. rewrite IH. reflexivity.
  - rewrite filter_cons_False by exact Hnp. exact IH.
  - rewrite fmap_cons, filter_cons_False by exact Heq. exact IH.
  - exact IH.
Qed.

(** The listener's ["connected"] branch with a toast running. *)
Lemma ok_dismiss (k tid : nat) :
  ls !! k = Some (Some tid) ->
  toasts_ok (filter (fun t => toast_id t <> tid) ts) n (<[k := None]> ls).
Proof.
  intros Hk. pose proof running_NoDup as Hrun.
  destruct Hok as (Hlt & Hnd & Hperm). split; [|split].
  - apply Forall_forall. intros t Ht.
    apply list_elem_of_filter in Ht as [_ Ht].
    rewrite Forall_forall in Hlt. apply Hlt, Ht.
  - apply fmap_filter_NoDup.
  - rewrite persistent_ids_without, Hperm.
    unfold running in *.
    rewrite insert_take_drop by exact (lookup_lt_Some _ _ _ Hk).
    rewrite <- (take_drop_middle ls k (Some tid) Hk) in Hrun |- * at 1.
    rewrite !omap_app in *. simpl in *.
    apply NoDup_app in Hrun as (_ & Hdisj & Hrun2).
    apply NoDup_cons in Hrun2 as [Hnot2 _].
    rewrite filter_app, filter_cons_False by (intros H; apply H; reflexivity).
    rewrite (filter_other_ids tid _ Hnot2).
    rewrite filter_other_ids; [reflexivity|].
    intros Hin. apply (Hdisj tid Hin). left.
Qed.

(** A toast with a timeout leaves. *)
Lemma ok_expire (tid : nat) :
  toasts_ok (filter (fun t => toast_id t <> tid \/ persistent t) ts) n ls.
Proof.
  destruct Hok as (Hlt & Hnd & Hperm). split; [|split].
  - apply Forall_forall. intros t Ht.
    apply list_elem_of_filter in Ht as [_ Ht].
    rewrite Forall_forall in Hlt. apply Hlt, Ht.
  - apply fmap_filter_NoDup.
  - rewrite <- Hperm. clear. induction ts as [|t l IH]; [reflexivity|].
    rewrite (filter_cons (fun t => toast_id t <> tid \/ persistent t)).
    rewrite (filter_cons persistent t l).
    destruct (decide (persistent t)) as [Hp|Hnp].
    + rewrite decide_True by (right; exact Hp).
      rewrite filter_cons_True by exact Hp. rewrite !fmap_cons, IH.
      reflexivity.
    + destruct (decide (toast_id t <> tid \/ persistent t)); [|exact IH].
      rewrite filter_cons_False by exact Hnp. exact IH.
Qed.


End ToastContainer.

Lemma toast_inv_ext (w w' : World) :
  toasts w' = toasts w -> next_toast w' = next_toast w ->
  listeners w' = listeners w -> toast_inv w -> toast_inv w'.
Proof. unfold toast_inv. intros -> -> ->. exact id. Qed.

Lemma toast_inv_init (o : string) : toast_inv (init o).
Proof.
  split; [apply Forall_nil_2|]. split; [apply NoDup_nil_2|]. reflexivity.
Qed.

Lemma success_toast_transient (n : nat) :
  ~ persistent (mkToast n by_success (fst successToast) (snd successToast)).
Proof. unfold persistent. simpl. discriminate. Qed.

(** One listener called with the new state. *)
Lemma state_listener_ok (k : nat) (s : ConnectionState) (w : World) :
  (k < length (listeners w))%nat -> toast_inv w ->
  exists w' : World,
    state_listener k s w = Normal tt w' /\ toast_inv w' /\
    length (listeners w') = length (listeners w).
Proof.
  intros Hk Hinv.
  destruct (lookup_lt_is_Some_2 _ _ Hk) as [c Hc].
  unfold state_listener, get_runningToast, set_runningToast, toast_show,
    toast_dismiss.
  js_unfold.
  destruct s; cbn beta; rewrite Hc; destruct c as [t|]; simpl;
    eexists; (split; [reflexivity|]); unfold toast_inv; simpl;
    rewrite ?length_insert; (split; [|reflexivity]).
  - exact Hinv.
  - apply ok_show_and_hold; [exact Hinv|exact Hc|reflexivity|reflexivity].
  - apply ok_show_transient;
      [|reflexivity|apply success_toast_transient].
    apply ok_dismiss; [exact Hinv|exact Hc].
  - apply ok_show_transient;
      [exact Hinv|reflexivity|apply success_toast_transient].
  - exact Hinv.
  - apply ok_show_and_hold; [exact Hinv|exact Hc|reflexivity|reflexivity].
Qed.

Lemma forEach_listener_ok (s : ConnectionState) (ks : list nat) (w : World) :
  Forall (fun k => (k < length (listeners w))%nat) ks -> toast_inv w ->
  exists w' : World,
    forEach (fun k => state_listener k s) ks w = Normal tt w' /\
    toast_inv w' /\ length (listeners w') = length (listeners w).
Proof.
  revert w. induction ks as [|k ks IH]; intros w Hks Hinv.
  - exists w. split; [reflexivity|]. split; [exact Hinv|reflexivity].
  - apply Forall_cons in Hks as [Hk Hks].
    destruct (state_listener_ok k s w Hk Hinv) as (w1 & H1 & Hinv1 & Hl1).
    rewrite <- Hl1 in Hks.
    destruct (IH w1 Hks Hinv1) as (w2 & H2 & Hinv2 & Hl2).
    exists w2. split; [|split; [exact Hinv2|congruence]].
    simpl. unfold mbind, JS_bind, bind. rewrite H1. exact H2.
Qed.

Lemma toast_inv_step (ev : Event) (w : World) :
  toast_inv w -> toast_inv (step ev w).
Proof.
  intros Hinv. destruct ev as [this|this|this|k o|e|s|tid].
  - destruct (componentDidMount_fulfils this w)
      as (w' & Hrun & Ht & Hn & Hl & _).
    unfold step, run, handler. rewrite Hrun.
    unfold toast_inv. rewrite Ht, Hn, Hl.
    apply ok_show_and_listen; [exact Hinv|reflexivity|reflexivity].
  - unfold step, run, handler, componentWillUnmount. js_unfold.
    destruct (USER_PROVIDER w) as [q|]; [destruct (decide (q = this))|];
      exact Hinv.
  - unfold step, run, handler.
    destruct (guard w this) eqn:Hg.
    + rewrite (fetchUser_guarded _ _ Hg). exact Hinv.
    + rewrite (fetchUser_issues _ _ Hg). exact Hinv.
  - destruct (pending w !! k) as [this|] eqn:Hk.
    + destruct (complete_step w k this o Hk)
        as (result & w1 & _ & -> & _ & _ & Ht & Hn & Hl & _).
      pose proof (toast_inv_ext w w1 Ht Hn Hl Hinv) as Hinv1.
      unfold after_fetch. destruct result as [u|e]; [exact Hinv1|].
      destruct (status_code e =? StatusCode.Unauthenticated)%Z;
        [exact Hinv1|].
      unfold toast_inv. simpl.
      apply ok_show_transient; [exact Hinv1|reflexivity|].
      unfold persistent. simpl. discriminate.
    + rewrite (complete_stale _ _ _ Hk). exact Hinv.
  - unfold step, run, handler, inspectError. js_unfold.
    destruct (status_code e =? StatusCode.Unauthenticated)%Z; [|exact Hinv].
    destruct (USER_PROVIDER w); exact Hinv.
  - unfold step, run, handler, WS_emit_state. js_unfold.
    destruct (forEach_listener_ok s (seq 0 (length (listeners w))) w)
      as (w' & H & Hinv' & _); [|exact Hinv|].
    + apply Forall_forall. intros k Hk. apply elem_of_seq in Hk. lia.
    + unfold mbind, JS_bind, bind in H. rewrite H. exact Hinv'.
  - unfold step, run, handler, toast_expire, toast_inv. simpl.
    apply ok_expire, Hinv.
Qed.

Lemma reachable_toast_inv (w : World) : reachable w -> toast_inv w.
Proof.
  induction 1 as [o|w ev _ IH].
  - apply toast_inv_init.
  - apply toast_inv_step, IH.
Qed.


(** ** The websocket listener *)





Lemma reachable_steps (evs : list Event) (w : World) :
  reachable w -> reachable (steps evs w).
Proof.
  revert w. induction evs as [|ev evs IH]; intros w Hw; [exact Hw|].
  apply IH, reachable_step, Hw.
Qed.






(** * Beyond the claims *)

(** ** [Result] *)

(** X1. [map] and [mapErr] are functorial, each leaves the other side
    untouched, and they commute. *)
Theorem Result_map_mapErr_laws {T U V E F G : Type} (r : Result T E)
    (f : T -> U) (g : U -> V) (h : E -> F) (k : F -> G) :
  Result_map r (fun x => x) = r /\
  Result_map (Result_map r f) g = Result_map r (fun x => g (f x)) /\
  Result_mapErr r (fun e => e) = r /\
  Result_mapErr (Result_mapErr r h) k = Result_mapErr r (fun e => k (h e)) /\
  Result_mapErr (Result_map r f) h = Result_map (Result_mapErr r h) f /\
  isOk (Result_map r f) = isOk r /\
  isErr (Result_mapErr r h) = isErr r.
Proof. destruct r as [ok|err]; repeat split; reflexivity. Qed.

(** X2. [andThen] with [Ok] as the unit obeys the monad laws, [map] is
    [andThen] followed by [Ok], and an [Err] goes through a chain of
    [andThen] unchanged, no function of the chain being called on it. *)
Theorem Result_andThen_laws {T U V E : Type} (r : Result T E) (x : T)
    (e : E) (f : T -> Result U E) (g : U -> Result V E) (h : T -> U) :
  Result_andThen (Ok x) f = f x /\
  Result_andThen r Ok = r /\
  Result_andThen (Result_andThen r f) g
  = Result_andThen r (fun y => Result_andThen (f y) g) /\
  Result_map r h = Result_andThen r (fun y => Ok (h y)) /\
  Result_andThen (Result_andThen (Err e) f) g = Err e.
Proof. destruct r as [ok|err]; repeat split; reflexivity. Qed.

(** X3. [unwrap] returns exactly on an [Ok] and throws an [UnwrapError]
    carrying the error exactly on an [Err]; [unwrapOr] and [unwrapOrElse]
    never throw, agree with [unwrap] when it returns, and give the default
    exactly on an [Err]. *)
Theorem Result_unwrap_family {T E : Type} (r : Result T E) (d : T)
    (mk : unit -> T) :
  (forall v : T, Result_unwrap r = Returns v <-> r = Ok v) /\
  (forall x : UnwrapError E,
     Result_unwrap r = Throws x <-> r = Err (value x)) /\
  (forall v : T, Result_unwrap r = Returns v ->
     Result_unwrapOr r d = v /\ Result_unwrapOrElse r mk = v) /\
  (isErr r = true ->
     Result_unwrapOr r d = d /\ Result_unwrapOrElse r mk = mk tt) /\
  Result_unwrapOr r d = Result_unwrapOrElse r (fun _ => d) /\
  Result_unwrapOr r d = Result_match r (fun v => v) (fun _ => d).
Proof.
  destruct r as [ok|err]; simpl.
  - split; [intros v; split; intros H; congruence|].
    split; [intros x; split; intros H; discriminate H|].
    split; [intros v H; injection H as <-; split; reflexivity|].
    split; [intros H; discriminate H|]. split; reflexivity.
  - split; [intros v; split; intros H; discriminate H|].
    split.
    { intros [x]; simpl; split; intros H; congruence. }
    split; [intros v H; discriminate H|].
    split; [intros _; split; reflexivity|]. split; reflexivity.
Qed.

Lemma Result_unwrap_family_witness :
  (Result_unwrapOr (@Ok nat string 3%nat) 0%nat = 3%nat /\
   Result_unwrapOrElse (@Ok nat string 3%nat) (fun _ => 0%nat) = 3%nat) /\
  (Result_unwrapOr (@Err nat string "gone") 7%nat = 7%nat /\
   Result_unwrapOrElse (@Err nat string "gone") (fun _ => 9%nat) = 9%nat).
Proof.
  split.
  - exact (proj1 (proj2 (proj2
             (Result_unwrap_family (@Ok nat string 3%nat) 0%nat
                (fun _ => 0%nat)))) 3%nat eq_refl).
  - exact (proj1 (proj2 (proj2 (proj2
             (Result_unwrap_family (@Err nat string "gone") 7%nat
                (fun _ => 9%nat)))))
             eq_refl).
Defined.

Lemma collect_from_oks {T E : Type} (array vs : list T)
    (rest : list (Result T E)) :
  collect_from array ((Ok <$> vs) ++ rest) = collect_from (array ++ vs) rest.
Proof.
  revert array. induction vs as [|v vs IH]; intros array; simpl.
  - rewrite app_nil_r. reflexivity.
  - rewrite IH, <- app_assoc. reflexivity.
Qed.

Lemma collect_from_shape {T E : Type} (iterable : list (Result T E))
    (array : list T) :
  (exists vs : list T,
     iterable = Ok <$> vs /\ collect_from array iterable = Ok (array ++ vs)) \/
  (exists (vs : list T) (e : E) (rest : list (Result T E)),
     iterable = (Ok <$> vs) ++ Err e :: rest /\
     collect_from array iterable = Err e).
Proof.
  revert array. induction iterable as [|[ok|err] rest IH]; intros array.
  - left. exists []. rewrite app_nil_r. split; reflexivity.
  - destruct (IH (array ++ [ok])) as [(vs & -> & H)|(vs & e & rest' & -> & H)].
    + left. exists (ok :: vs). split; [reflexivity|].
      simpl. rewrite H, <- app_assoc. reflexivity.
    + right. exists (ok :: vs), e, rest'. split; [reflexivity|exact H].
  - right. exists [], err, rest. split; reflexivity.
Qed.

(** X4. [Result.collect] gives [Ok] of all the values, in order, exactly
    when every element is an [Ok], and otherwise the first [Err], whatever
    comes after it. *)
Theorem collect_spec {T E : Type} (iterable : list (Result T E)) :
  (forall vs : list T, collect iterable = Ok vs <-> iterable = Ok <$> vs) /\
  (forall e : E,
     collect iterable = Err e <->
     exists (vs : list T) (rest : list (Result T E)),
       iterable = (Ok <$> vs) ++ Err e :: rest) /\
  (forall (vs : list T) (e : E) (rest rest' : list (Result T E)),
     collect ((Ok <$> vs) ++ Err e :: rest)
     = collect ((Ok <$> vs) ++ Err e :: rest')).
Proof.
  unfold collect. split; [|split].
  - intros vs. split.
    + intros H.
      destruct (collect_from_shape iterable [])
        as [(vs' & -> & H')|(vs' & e & rest & -> & H')];
        rewrite H' in H; [|discriminate H].
      injection H as <-. reflexivity.
    + intros ->. rewrite <- (app_nil_r (Ok <$> vs)), collect_from_oks.
      reflexivity.
  - intros e. split.
    + intros H.
      destruct (collect_from_shape iterable [])
        as [(vs' & -> & H')|(vs' & e' & rest & -> & H')];
        rewrite H' in H; [discriminate H|].
      injection H as <-. exists vs', rest. reflexivity.
    + intros (vs & rest & ->). rewrite collect_from_oks. reflexivity.
  - intros vs e rest rest'. rewrite !collect_from_oks. reflexivity.
Qed.

Lemma collect_spec_witness :
  collect [@Ok nat string 1%nat; Ok 2%nat] = Ok [1%nat; 2%nat] /\
  collect [@Ok nat string 1%nat; Err "bad"; Ok 2%nat; Err "worse"]
  = Err "bad".
Proof.
  split.
  - apply (proj1 (collect_spec [@Ok nat string 1%nat; Ok 2%nat])).
    reflexivity.
  - apply (proj1 (proj2 (collect_spec
             [@Ok nat string 1%nat; Err "bad"; Ok 2%nat; Err "worse"]))).
    exists [1%nat], [Ok 2%nat; Err "worse"]. reflexivity.
Defined.

(** ** The converters of [FullUser] *)

Lemma lookup_two_first (k1 k2 : string) (a b : JsValue) :
  (<[k1 := a]> (<[k2 := b]> (∅ : gmap string JsValue))) !! k1 = Some a.
Proof. apply lookup_insert_eq. Qed.

Lemma lookup_two_second (k1 k2 : string) (a b : JsValue) :
  k1 <> k2 ->
  (<[k1 := a]> (<[k2 := b]> (∅ : gmap string JsValue))) !! k2 = Some b.
Proof.
  intros Hne. rewrite lookup_insert_ne by exact Hne. apply lookup_insert_eq.
Qed.

Ltac two_keys :=
  repeat (rewrite lookup_two_first
          || rewrite lookup_two_second by discriminate
          || simpl).

(** X5. The two converters are inverse to each other on users: a user
    written with [FullUserToJSON] has exactly the keys [display_name] and
    [uuid], and [FullUserFromJSON] reads it back as the same user, which
    [instanceOfFullUser] accepts. *)
Theorem FullUser_JSON_roundtrip (u : FullUser) :
  FullUserToJSON (of_FullUser u)
  = JObject (<["display_name" := JString (displayName u)]>
               (<["uuid" := JString (uuid u)]> ∅)) /\
  FullUserFromJSON (FullUserToJSON (of_FullUser u)) = of_FullUser u /\
  (forall fields : gmap string JsValue,
     of_FullUser u = JObject fields -> instanceOfFullUser fields = true).
Proof.
  split; [|split].
  - unfold FullUserToJSON, of_FullUser, get_prop. two_keys. reflexivity.
  - unfold FullUserFromJSON, FullUserFromJSONTyped, FullUserToJSON,
      of_FullUser, get_prop. two_keys. reflexivity.
  - intros fields H. injection H as <-. unfold instanceOfFullUser.
    two_keys. reflexivity.
Qed.

Lemma FullUser_JSON_roundtrip_witness :
  instanceOfFullUser
    (<["displayName" := JString "Alice"]> (<["uuid" := JString "u1"]> ∅))
  = true.
Proof.
  exact (proj2 (proj2 (FullUser_JSON_roundtrip alice)) _ eq_refl).
Defined.

Lemma FromJSON_object (json : JsValue) :
  json <> JNull -> json <> JUndefined ->
  FullUserFromJSON json
  = JObject (<["displayName" := get_prop json "display_name"]>
               (<["uuid" := get_prop json "uuid"]> ∅)).
Proof.
  intros Hn Hu. unfold FullUserFromJSON, FullUserFromJSONTyped.
  destruct json; try reflexivity; congruence.
Qed.

(** X6. [FullUserFromJSON] checks nothing.  It hands [null] and
    [undefined] back as they are; from anything else it builds an object
    with both keys, a key the input lacks being there with the value
    [undefined].  So its result passes [instanceOfFullUser] exactly when
    the input had both [display_name] and [uuid] defined, and every other
    key of the input is dropped. *)
Theorem FullUserFromJSON_unchecked (json : JsValue) :
  FullUserFromJSON JNull = JNull /\
  FullUserFromJSON JUndefined = JUndefined /\
  FullUserToJSON JNull = JNull /\
  FullUserToJSON JUndefined = JUndefined /\
  (json <> JNull -> json <> JUndefined ->
   exists fields : gmap string JsValue,
     FullUserFromJSON json = JObject fields /\
     dom fields = {["displayName"; "uuid"]} /\
     get_prop (JObject fields) "displayName" = get_prop json "display_name" /\
     get_prop (JObject fields) "uuid" = get_prop json "uuid" /\
     (instanceOfFullUser fields = true <->
      get_prop json "display_name" <> JUndefined /\
      get_prop json "uuid" <> JUndefined)).
Proof.
  do 4 (split; [reflexivity|]).
  intros Hn Hu. eexists. split; [apply FromJSON_object; assumption|].
  split; [|split; [|split]].
  - rewrite !dom_insert_L, dom_empty_L. set_solver.
  - unfold get_prop at 1. rewrite lookup_two_first. reflexivity.
  - unfold get_prop at 1.
    rewrite lookup_two_second by discriminate. reflexivity.
  - unfold instanceOfFullUser.
    rewrite lookup_two_first, lookup_two_second by discriminate.
    destruct (get_prop json "display_name"), (get_prop json "uuid");
      split; try (intros H; discriminate H); try (intros [H1 H2]; congruence);
      intros _; split; discriminate.
Qed.

Lemma FullUserFromJSON_unchecked_witness :
  exists fields : gmap string JsValue,
    FullUserFromJSON (JObject (<["uuid" := JString "u1"]> ∅)) = JObject fields /\
    dom fields = {["displayName"; "uuid"]} /\
    get_prop (JObject fields) "displayName" = JUndefined /\
    instanceOfFullUser fields = false.
Proof.
  destruct (proj2 (proj2 (proj2 (proj2
              (FullUserFromJSON_unchecked
                 (JObject (<["uuid" := JString "u1"]> ∅))))))
              ltac:(discriminate) ltac:(discriminate))
    as (fields & Hf & Hd & Hdn & _ & Hinst).
  exists fields. split; [exact Hf|]. split; [exact Hd|].
  split; [exact Hdn|].
  destruct (instanceOfFullUser fields); [|reflexivity].
  destruct (proj1 Hinst eq_refl) as [H _]. exfalso. apply H. reflexivity.
Defined.

(** ** [handleError] and the console *)

(** X7. [handleError] changes nothing of the page but the console, and it
    writes there exactly when it makes the error up itself: nothing is
    logged for a fulfilled promise or for a server error whose body
    parses, one line is logged for a body that is not JSON, for a
    [RequiredError] and for any other thrown value. *)
Theorem handleError_logging {T : Type} (promise : Settled T) (w : World) :
  exists (r : Result T ApiError) (w' : World),
    handleError promise w = Normal r w' /\
    match promise with
    | Fulfilled _ => w' = w
    | Rejected (ResponseError response) =>
        match body_json response with
        | Some _ => w' = w
        | None => w' = with_effect (EConsoleError "Got invalid json") w
        end
    | Rejected (RequiredError _ msg) => w' = with_effect (EConsoleError msg) w
    | Rejected _ =>
        w' = with_effect (EConsoleError "Unknown error occurred:") w
    end.
Proof.
  destruct promise as [v|[response|field msg|msg|msg]];
    unfold handleError, parseError, Response_json; js_unfold; simpl;
    try destruct (body_json response); simpl;
    eexists; eexists; split; reflexivity.
Qed.

(** ** The login view *)



(** ** One request per controller *)








(** X10. In every reachable world a controller that renders its
    dependents (the context provider with the user) has no fetch in
    flight and its guard clear; while one of its fetches is in flight it
    renders the loading or the login view. *)
Theorem dependents_rendered_when_idle (w : World) (j : nat) :
  reachable w ->
  (forall u : FullUser,
     render (instance w j) = ContextProvider u ->
     session w j = full u /\ guard w j = false /\ j ∉ pending w) /\
  (j ∈ pending w ->
     render (instance w j) = LoadingView \/
     render (instance w j) = LoginView).
Proof.
  intros Hw. destruct (reachable_guard_inv w Hw) as (_ & Hg & Hs).
  assert (Hfull : forall u, session w j = full u ->
                            guard w j = false /\ j ∉ pending w).
  { intros u Hu.
    assert (Hgj : guard w j = false).
    { destruct (guard w j) eqn:E; [|reflexivity].
      exfalso. exact (Hs j u E Hu). }
    split; [exact Hgj|]. intros Hin. rewrite (Hg j Hin) in Hgj.
    discriminate Hgj. }
  split.
  - intros u Hr. unfold render in Hr.
    assert (Hu : session w j = full u).
    { unfold session. destruct (user (state (instance w j)));
        try discriminate Hr. injection Hr as ->. reflexivity. }
    split; [exact Hu|]. apply (Hfull u Hu).
  - intros Hin. unfold render.
    destruct (user (state (instance w j))) as [u| |] eqn:E; auto.
    exfalso. destruct (Hfull u) as [_ Hnot]; [exact E|]. exact (Hnot Hin).
Qed.

Lemma dependents_rendered_when_idle_witness :
  (session signed_in 0%nat = full alice /\
   guard signed_in 0%nat = false /\ 0%nat ∉ pending signed_in) /\
  (render (instance mounted 0%nat) = LoadingView \/
   render (instance mounted 0%nat) = LoginView).
Proof.
  split.
  - apply (proj1 (dependents_rendered_when_idle signed_in 0%nat
                    reachable_signed_in) alice).
    reflexivity.
  - apply (proj2 (dependents_rendered_when_idle mounted 0%nat
                    reachable_mounted)).
    apply list_elem_of_singleton. reflexivity.
Defined.

(** ** What the callbacks add to the trace *)

Lemma componentDidMount_trace (this : nat) (w : World) :
  exists w' : World,
    componentDidMount this w = Normal tt w' /\
    trace w'
    = match USER_PROVIDER w with
      | None => []
      | Some q =>
          [EConsoleError (if decide (q = this)
                          then "UserProvider did mount twice"
                          else "Two instances of UserProvider are used")]
      end
      ++ (if guard w this then [] else [EGetMe this]) ++ trace w.
Proof.
  unfold componentDidMount, fetchUser. js_unfold.
  destruct (guard w this) eqn:Hg; simpl;
    destruct (USER_PROVIDER w) as [q|] eqn:Hq; simpl;
    try destruct (decide (q = this)); simpl;
    eexists; split; reflexivity.
Qed.


Lemma handleError_effect {T : Type} (o : Settled T) (w : World) :
  exists (r : Result T ApiError) (w1 : World),
    handleError o w = Normal r w1 /\
    origin w1 = origin w /\
    (trace w1 = trace w \/
     exists msg : string, trace w1 = EConsoleError msg :: trace w).
Proof.
  destruct o as [v|[response|field msg|msg|msg]];
    unfold handleError, parseError, Response_json; js_unfold; simpl;
    try destruct (body_json response); simpl;
    eexists; eexists; (split; [reflexivity|]); (split; [reflexivity|]);
    solve [left; reflexivity | right; eexists; reflexivity].
Qed.

(** Every event leaves the origin alone and adds benign effects only. *)
Lemma step_added (ev : Event) (w : World) :
  origin (step ev w) = origin w /\
  exists added : list Effect,
    trace (step ev w) = added ++ trace w /\ Forall (benign w) added.
Proof.
  destruct ev as [this|this|this|k o|e|s|tid].
  - destruct (componentDidMount_fulfils this w)
      as (w' & Hrun & _ & _ & _ & Ho & _).
    destruct (componentDidMount_trace this w) as (w'' & Hrun' & Ht).
    rewrite Hrun in Hrun'. injection Hrun' as <-.
    unfold step, run, handler. rewrite Hrun. split; [exact Ho|].
    eexists. split; [rewrite Ht, app_assoc; reflexivity|].
    apply Forall_app. split.
    + destruct (USER_PROVIDER w); repeat constructor.
    + destruct (guard w this); repeat constructor.
  - unfold step, run, handler, componentWillUnmount. js_unfold.
    destruct (USER_PROVIDER w) as [q|]; [destruct (decide (q = this))|];
      simpl; (split; [reflexivity|]).
    + exists []. split; [reflexivity|constructor].
    + eexists [_]. split; [reflexivity|repeat constructor].
    + eexists [_]. split; [reflexivity|repeat constructor].
  - unfold step, run, handler.
    destruct (guard w this) eqn:Hg.
    + rewrite (fetchUser_guarded _ _ Hg). split; [reflexivity|].
      exists []. split; [reflexivity|constructor].
    + rewrite (fetchUser_issues _ _ Hg). split; [reflexivity|].
      eexists [_]. split; [reflexivity|repeat constructor].
  - destruct (pending w !! k) as [this|] eqn:Hk.
    + destruct (handleError_effect o (with_pending (delete k) w))
        as (result & w1 & Hh & Ho & Ht).
      unfold step, run, handler, complete. js_unfold. rewrite Hk. simpl.
      rewrite Hh, fetchUser_then_eq.
      assert (Hrest : exists logged : list Effect,
                 trace w1 = logged ++ trace w /\ Forall (benign w) logged).
      { destruct Ht as [Ht|[msg Ht]].
        - exists []. split; [exact Ht|constructor].
        - eexists [_]. split; [exact Ht|repeat constructor]. }
      destruct Hrest as (logged & Hlog & Hben).
      unfold after_fetch.
      destruct result as [u|e];
        [|destruct (status_code e =? StatusCode.Unauthenticated)%Z]; simpl.
      * split; [exact Ho|]. exists (EWsConnect (ws_url (origin w1)) :: logged).
        split; [rewrite Hlog; reflexivity|].
        constructor; [simpl; rewrite Ho; reflexivity|exact Hben].
      * split; [exact Ho|]. exists logged. split; assumption.
      * split; [exact Ho|]. exists logged. split; assumption.
    + rewrite (complete_stale _ _ _ Hk). split; [reflexivity|].
      exists []. split; [reflexivity|constructor].
  - unfold step, run, handler, inspectError, setState, CONSOLE_warn.
    js_unfold.
    destruct (status_code e =? StatusCode.Unauthenticated)%Z;
      [destruct (USER_PROVIDER w)|]; simpl; (split; [reflexivity|]).
    + exists []. split; [reflexivity|constructor].
    + eexists [_]. split; [reflexivity|repeat constructor].
    + exists []. split; [reflexivity|constructor].
  - unfold step, run, handler, WS_emit_state. js_unfold.
    destruct (forEach_listener_frame s (seq 0 (length (listeners w))) w)
      as (w' & H & _ & _ & Ht & _ & Ho & _).
    unfold mbind, JS_bind, bind in H. rewrite H. split; [exact Ho|].
    exists []. split; [exact Ht|constructor].
  - split; [reflexivity|]. exists []. split; [reflexivity|constructor].
Qed.

Lemma reachable_benign (w : World) : reachable w -> Forall (benign w) (trace w).
Proof.
  induction 1 as [o|w ev _ IH]; [constructor|].
  destruct (step_added ev w) as (Ho & added & -> & Hadd).
  assert (Hsame : forall e, benign w e -> benign (step ev w) e).
  { intros e. unfold benign. rewrite Ho. exact id. }
  apply Forall_app. split; eapply Forall_impl; eauto.
Qed.



(** X12. Every [WS.connect] the page ever makes is to the URL made from
    the page's origin, which no event changes; and each fetch that
    settles with a user makes one more such call, whether or not a
    connection was started before. *)
Theorem connects_to_own_origin (w : World) :
  reachable w ->
  (forall ev : Event, origin (step ev w) = origin w) /\
  (forall url : string,
     EWsConnect url ∈ trace w -> url = ws_url (origin w)) /\
  (forall (k this : nat) (u : FullUser),
     pending w !! k = Some this ->
     trace (step (Complete k (Fulfilled u)) w)
     = EWsConnect (ws_url (origin w)) :: trace w).
Proof.
  intros Hw. split; [intros ev; apply step_added|]. split.
  - intros url Hin. pose proof (reachable_benign w Hw) as Hb.
    rewrite Forall_forall in Hb. exact (Hb _ Hin).
  - intros k this u Hk.
    destruct (complete_step w k this (Fulfilled u) Hk)
      as (result & w1 & Hh & -> & _).
    injection Hh as <- <-. reflexivity.
Qed.

Lemma connects_to_own_origin_witness :
  trace (step (Complete 0%nat (Fulfilled alice))
           (step (CallFetchUser 0%nat) signed_in))
  = EWsConnect (ws_url (origin (step (CallFetchUser 0%nat) signed_in)))
    :: trace (step (CallFetchUser 0%nat) signed_in).
Proof.
  apply (proj2 (proj2 (connects_to_own_origin
                         (step (CallFetchUser 0%nat) signed_in)
                         (reachable_step _ _ reachable_signed_in)))
           0%nat 0%nat alice).
  reflexivity.
Defined.

(** ** Requests and connections *)

(** What an event does to the numbers of requests sent, requests in flight
    and connections made: nothing, or one request more, or one request
    settled with at most one connection made. *)
Lemma step_counts (ev : Event) (w : World) :
  (requests_issued (step ev w) = requests_issued w /\
   pending (step ev w) = pending w /\
   ws_connects (step ev w) = ws_connects w) \/
  (exists this : nat,
     requests_issued (step ev w) = S (requests_issued w) /\
     pending (step ev w) = pending w ++ [this] /\
     ws_connects (step ev w) = ws_connects w) \/
  (exists k this : nat,
     pending w !! k = Some this /\
     requests_issued (step ev w) = requests_issued w /\
     pending (step ev w) = delete k (pending w) /\
     (ws_connects (step ev w) <= S (ws_connects w))%nat).
Proof.
  destruct ev as [this|this|this|k o|e|s|tid].
  - destruct (componentDidMount_fulfils this w)
      as (w' & Hrun & _ & _ & _ & _ & Hc & _ & Hp & _).
    destruct (componentDidMount_trace this w) as (w'' & Hrun' & Ht).
    rewrite Hrun in Hrun'. injection Hrun' as <-.
    unfold step, run, handler. rewrite Hrun.
    unfold requests_issued, ws_connects. rewrite Hc, Ht, Hp.
    destruct (guard w this); [left|right; left; exists this];
      destruct (USER_PROVIDER w); repeat split; reflexivity.
  - left. unfold step, run, handler, componentWillUnmount. js_unfold.
    destruct (USER_PROVIDER w) as [q|]; [destruct (decide (q = this))|];
      repeat split; reflexivity.
  - unfold step, run, handler. destruct (guard w this) eqn:Hg.
    + left. rewrite (fetchUser_guarded _ _ Hg). repeat split; reflexivity.
    + right. left. exists this. rewrite (fetchUser_issues _ _ Hg).
      repeat split; reflexivity.
  - destruct (pending w !! k) as [this|] eqn:Hk.
    + right. right. exists k, this.
      destruct (complete_step w k this o Hk)
        as (result & w1 & _ & -> & _ & Hp & _ & _ & _ & _ & _ & Hc & Hg).
      split; [exact Hk|]. rewrite pending_after_fetch, Hp.
      unfold requests_issued, ws_connects, after_fetch.
      destruct result as [u|e];
        [|destruct (status_code e =? StatusCode.Unauthenticated)%Z];
        simpl; rewrite ?(filter_cons_False (fun e => is_getMe e)) by (intros []);
        rewrite Hc, Hg; repeat split; lia.
    + left. rewrite (complete_stale _ _ _ Hk). repeat split; reflexivity.
  - left. unfold step, run, handler, inspectError, setState, CONSOLE_warn.
    js_unfold.
    destruct (status_code e =? StatusCode.Unauthenticated)%Z;
      [destruct (USER_PROVIDER w)|]; repeat split; reflexivity.
  - left. destruct (WsState_frame s w) as (_ & Hp & Ht & _).
    unfold requests_issued, ws_connects. rewrite Hp, Ht.
    repeat split; reflexivity.
  - left. repeat split; reflexivity.
Qed.

(** X13. In every reachable world the connections made and the requests
    still in flight together never outnumber the requests sent: each call
    of [WS.connect] answers a request of its own that has settled. *)
Theorem request_accounting (w : World) :
  reachable w ->
  (ws_connects w + length (pending w) <= requests_issued w)%nat.
Proof.
  induction 1 as [o|w ev _ IH]; [simpl; lia|].
  destruct (step_counts ev w)
    as [(Hr & Hp & Hc)|[(this & Hr & Hp & Hc)|(k & this & Hk & Hr & Hp & Hc)]];
    rewrite Hr, Hp.
  - rewrite Hc. exact IH.
  - rewrite Hc, length_app. simpl. lia.
  - pose proof (lookup_lt_Some _ _ _ Hk) as Hlt.
    rewrite length_delete by (eexists; exact Hk). lia.
Qed.

Lemma request_accounting_witness :
  (ws_connects signed_in + length (pending signed_in)
   <= requests_issued signed_in)%nat.
Proof. exact (request_accounting signed_in reachable_signed_in). Defined.

(** ** Unmounting and mounting again *)

Lemma Unmount_eq (this : nat) (w : World) :
  step (Unmount this) w
  = match USER_PROVIDER w with
    | Some q =>
        if decide (q = this) then with_USER_PROVIDER None w
        else with_effect
               (EConsoleError "Two instances of UserProvider are used") w
    | None =>
        with_effect
          (EConsoleError "UserProvider instance did unmount twice") w
    end.
Proof.
  unfold step, run, handler, componentWillUnmount, CONSOLE_error. js_unfold.
  destruct (USER_PROVIDER w) as [q|]; [destruct (decide (q = this))|];
    reflexivity.
Qed.



(** X15. A controller that is mounted, unmounted and mounted again, the
    slot being free, ends up registered, with nothing logged and at most
    one request sent, the second [fetchUser] meeting the guard; but it has
    two listeners at the websocket and two persistent "Connecting
    websocket..." toasts on screen. *)
Theorem remount_doubles_toast (w : World) (this : nat) :
  USER_PROVIDER w = None ->
  let w3 := steps [Mount this; Unmount this; Mount this] w in
  USER_PROVIDER w3 = Some this /\
  trace w3 = (if guard w this then [] else [EGetMe this]) ++ trace w /\
  pending w3 = (if guard w this then pending w else pending w ++ [this]) /\
  listeners w3
  = listeners w ++ [Some (next_toast w); Some (S (next_toast w))] /\
  toasts w3
  = connecting_toast (S (next_toast w)) :: connecting_toast (next_toast w)
    :: toasts w /\
  length (visible_persistent w3) = S (S (length (visible_persistent w))).
Proof.
  intros Hu. simpl.
  destruct (componentDidMount_fulfils this w)
    as (w1 & Hrun1 & Ht1 & Hn1 & Hl1 & _ & _ & Hi1 & Hp1 & Hu1).
  destruct (componentDidMount_trace this w) as (w1' & Hrun1' & Htr1).
  rewrite Hrun1 in Hrun1'. injection Hrun1' as <-.
  rewrite Hu in Hu1, Htr1. simpl in Htr1.
  assert (Hs1 : step (Mount this) w = w1)
    by (unfold step, run, handler; rewrite Hrun1; reflexivity).
  rewrite Hs1, Unmount_eq, Hu1, decide_True by reflexivity.
  set (w2 := with_USER_PROVIDER None w1).
  assert (Hg2 : guard w2 this = true).
  { change (guard w1 this = true). rewrite (guard_ext _ _ this Hi1).
    destruct (guard w this) eqn:Hg; [exact Hg|].
    rewrite guard_after_fetchUser, decide_True by reflexivity. reflexivity. }
  destruct (componentDidMount_fulfils this w2)
    as (w3 & Hrun3 & Ht3 & Hn3 & Hl3 & _ & _ & _ & Hp3 & Hu3).
  destruct (componentDidMount_trace this w2) as (w3' & Hrun3' & Htr3).
  rewrite Hrun3 in Hrun3'. injection Hrun3' as <-.
  rewrite Hg2 in Hp3, Htr3.
  assert (Hs3 : step (Mount this) w2 = w3)
    by (unfold step, run, handler; rewrite Hrun3; reflexivity).
  rewrite Hs3.
  split; [exact Hu3|]. split; [rewrite Htr3; exact Htr1|].
  split; [rewrite Hp3; exact Hp1|].
  split; [rewrite Hl3; unfold w2; simpl; rewrite Hl1, Hn1, <- app_assoc;
          reflexivity|].
  assert (Htoasts : toasts w3
                    = connecting_toast (S (next_toast w))
                      :: connecting_toast (next_toast w) :: toasts w).
  { rewrite Ht3. unfold w2. simpl. rewrite Ht1, Hn1. reflexivity. }
  split; [exact Htoasts|].
  unfold visible_persistent. rewrite Htoasts.
  rewrite !filter_cons_True by reflexivity. reflexivity.
Qed.

Lemma remount_doubles_toast_witness :
  USER_PROVIDER (steps [Mount 0%nat; Unmount 0%nat; Mount 0%nat] (init ""))
  = Some 0%nat /\
  trace (steps [Mount 0%nat; Unmount 0%nat; Mount 0%nat] (init ""))
  = [EGetMe 0%nat] /\
  length (visible_persistent
            (steps [Mount 0%nat; Unmount 0%nat; Mount 0%nat] (init "")))
  = 2%nat.
Proof.
  destruct (remount_doubles_toast (init "") 0%nat eq_refl)
    as (Hu & Ht & _ & _ & _ & Hv).
  split; [exact Hu|]. split; [exact Ht|exact Hv].
Defined.

(** ** The websocket's events with any number of listeners *)

Section AllListeners.

Variable s : ConnectionState.
Variable Q : option nat -> Prop.

(** What one listener does on [s]: it leaves its own variable in [Q] and
    the variables of the others alone. *)
Hypothesis own_cell : forall (w : World) (k : nat),
  (k < length (listeners w))%nat ->
  exists w' : World,
    state_listener k s w = Normal tt w' /\
    length (listeners w') = length (listeners w) /\
    (exists c : option nat, listeners w' !! k = Some c /\ Q c) /\
    (forall j : nat, j <> k -> listeners w' !! j = listeners w !! j).

Lemma forEach_cells (ks : list nat) (w : World) :
  Forall (fun k => (k < length (listeners w))%nat) ks ->
  exists w' : World,
    forEach (fun k => state_listener k s) ks w = Normal tt w' /\
    length (listeners w') = length (listeners w) /\
    forall j : nat,
      (j ∈ ks -> exists c : option nat, listeners w' !! j = Some c /\ Q c) /\
      (forall c : option nat, listeners w !! j = Some c -> Q c ->
         exists c' : option nat, listeners w' !! j = Some c' /\ Q c').
Proof.
  revert w. induction ks as [|k ks IH]; intros w Hks.
  - exists w. split; [reflexivity|]. split; [reflexivity|].
    intros j. split; [intros Hj; inversion Hj|]. eauto.
  - apply Forall_cons in Hks as [Hk Hks].
    destruct (own_cell w k Hk) as (w1 & H1 & Hl1 & (c1 & Hc1 & HQ1) & Ho1).
    rewrite <- Hl1 in Hks.
    destruct (IH w1 Hks) as (w2 & H2 & Hl2 & Hcells).
    exists w2. split; [|split; [congruence|]].
    + simpl. unfold mbind, JS_bind, bind. rewrite H1. exact H2.
    + assert (Hkeep : forall j c, listeners w !! j = Some c -> Q c ->
                exists c', listeners w1 !! j = Some c' /\ Q c').
      { intros j c Hj Hq. destruct (decide (j = k)) as [->|Hne].
        - exists c1. split; assumption.
        - exists c. rewrite (Ho1 j Hne). split; assumption. }
      intros j. split.
      * intros Hj. apply elem_of_cons in Hj as [->|Hj].
        -- exact (proj2 (Hcells k) c1 Hc1 HQ1).
        -- exact (proj1 (Hcells j) Hj).
      * intros c Hj Hq. destruct (Hkeep j c Hj Hq) as (c' & Hj' & Hq').
        exact (proj2 (Hcells j) c' Hj' Hq').
Qed.

(** After the event every listener's variable is in [Q]. *)
Lemma WsState_cells (w : World) :
  length (listeners (step (WsState s) w)) = length (listeners w) /\
  Forall Q (listeners (step (WsState s) w)).
Proof.
  destruct (forEach_cells (seq 0 (length (listeners w))) w)
    as (w' & H & Hl & Hcells).
  { apply Forall_forall. intros k Hk. apply elem_of_seq in Hk. lia. }
  assert (Hs : step (WsState s) w = w').
  { unfold step, run, handler, WS_emit_state. js_unfold.
    unfold mbind, JS_bind, bind in H. rewrite H. reflexivity. }
  rewrite Hs. split; [exact Hl|].
  apply Forall_lookup. intros j c Hj.
  pose proof (lookup_lt_Some _ _ _ Hj) as Hlt. rewrite Hl in Hlt.
  destruct (proj1 (Hcells j)) as (c' & Hj' & Hq).
  { apply elem_of_seq. lia. }
  congruence.
Qed.

End AllListeners.

Lemma connected_own_cell (w : World) (k : nat) :
  (k < length (listeners w))%nat ->
  exists w' : World,
    state_listener k connected w = Normal tt w' /\
    length (listeners w') = length (listeners w) /\
    (exists c : option nat, listeners w' !! k = Some c /\ c = None) /\
    (forall j : nat, j <> k -> listeners w' !! j = listeners w !! j).
Proof.
  intros Hk. destruct (lookup_lt_is_Some_2 _ _ Hk) as [c Hc].
  unfold state_listener, get_runningToast, set_runningToast, toast_show,
    toast_dismiss.
  js_unfold. cbn beta. rewrite Hc. destruct c as [t|]; simpl;
    eexists; (split; [reflexivity|]); simpl.
  - rewrite length_insert. split; [reflexivity|]. split.
    + exists None. split; [apply list_lookup_insert_eq, Hk|reflexivity].
    + intros j Hj. apply list_lookup_insert_ne. congruence.
  - split; [reflexivity|]. split; [exists None; split; [exact Hc|reflexivity]|].
    reflexivity.
Qed.

Lemma other_own_cell (s : ConnectionState) (w : World) (k : nat) :
  s <> connected ->
  (k < length (listeners w))%nat ->
  exists w' : World,
    state_listener k s w = Normal tt w' /\
    length (listeners w') = length (listeners w) /\
    (exists c : option nat, listeners w' !! k = Some c /\ is_Some c) /\
    (forall j : nat, j <> k -> listeners w' !! j = listeners w !! j).
Proof.
  intros Hs Hk. destruct (lookup_lt_is_Some_2 _ _ Hk) as [c Hc].
  unfold state_listener, get_runningToast, set_runningToast, toast_show.
  js_unfold.
  destruct s; [|congruence|]; cbn beta; rewrite Hc; destruct c as [t|]; simpl;
    eexists; (split; [reflexivity|]); simpl; rewrite ?length_insert;
    (split; [reflexivity|]); split;
    try (eexists; split; [exact Hc|eexists; reflexivity]);
    try (eexists; split; [apply list_lookup_insert_eq, Hk|eexists; reflexivity]);
    try reflexivity;
    intros j Hj; apply list_lookup_insert_ne; congruence.
Qed.

Lemma running_none (ls : list (option nat)) :
  Forall (fun c => c = None) ls -> running ls = [].
Proof.
  unfold running. induction 1 as [|c l -> _ IH]; [reflexivity|exact IH].
Qed.

Lemma running_all (ls : list (option nat)) :
  Forall is_Some ls -> length (running ls) = length ls.
Proof.
  unfold running. induction 1 as [|c l [t ->] _ IH]; [reflexivity|].
  simpl. unfold omap in IH. rewrite IH. reflexivity.
Qed.

(** With every listener holding a toast, an event other than
    ["connected"] changes nothing. *)
Lemma forEach_all_running (s : ConnectionState) (ks : list nat) (w : World) :
  s <> connected -> Forall is_Some (listeners w) ->
  Forall (fun k => (k < length (listeners w))%nat) ks ->
  forEach (fun k => state_listener k s) ks w = Normal tt w.
Proof.
  intros Hs Hall Hks. induction Hks as [|k ks Hk _ IH]; [reflexivity|].
  destruct (lookup_lt_is_Some_2 _ _ Hk) as [c Hc].
  rewrite Forall_lookup in Hall. destruct (Hall k c Hc) as [t ->].
  simpl. unfold mbind, JS_bind, bind.
  assert (H1 : state_listener k s w = Normal tt w).
  { unfold state_listener, get_runningToast. js_unfold.
    destruct s; [|congruence|]; cbn beta; rewrite Hc; reflexivity. }
  rewrite H1. exact IH.
Qed.

(** X16. After a ["connected"] event, however many controllers have
    mounted, no listener holds a toast and no persistent toast is left on
    screen. *)
Theorem connected_clears_all (w : World) :
  reachable w ->
  Forall (fun c => c = None) (listeners (step (WsState connected) w)) /\
  length (listeners (step (WsState connected) w)) = length (listeners w) /\
  visible_persistent (step (WsState connected) w) = [].
Proof.
  intros Hw.
  destruct (WsState_cells connected (fun c => c = None) connected_own_cell w)
    as [Hlen Hall].
  split; [exact Hall|]. split; [exact Hlen|].
  pose proof (reachable_toast_inv _ (reachable_step w (WsState connected) Hw))
    as (_ & _ & Hperm).
  rewrite (running_none _ Hall) in Hperm.
  apply Permutation_nil_r in Hperm. apply fmap_nil_inv in Hperm. exact Hperm.
Qed.

Lemma connected_clears_all_witness :
  visible_persistent
    (step (WsState connected)
       (steps [Mount 0%nat; Mount 1%nat; Mount 0%nat] (init "")))
  = [].
Proof.
  apply connected_clears_all. apply reachable_steps, reachable_init.
Defined.

(** X17. After an event other than ["connected"], however many
    controllers have mounted, every listener holds a toast and there are
    as many persistent toasts on screen as listeners; a further such event
    changes nothing at all. *)
Theorem other_state_warns_once_each (w : World) (s s' : ConnectionState) :
  reachable w -> s <> connected -> s' <> connected ->
  Forall is_Some (listeners (step (WsState s) w)) /\
  length (visible_persistent (step (WsState s) w)) = length (listeners w) /\
  step (WsState s') (step (WsState s) w) = step (WsState s) w.
Proof.
  intros Hw Hs Hs'.
  destruct (WsState_cells s is_Some (fun w k => other_own_cell s w k Hs) w)
    as [Hlen Hall].
  split; [exact Hall|]. split.
  - pose proof (reachable_toast_inv _ (reachable_step w (WsState s) Hw))
      as (_ & _ & Hperm).
    unfold visible_persistent.
    rewrite <- (length_fmap toast_id), Hperm, (running_all _ Hall).
    exact Hlen.
  - set (w1 := step (WsState s) w) in *.
    unfold step at 1, run, handler, WS_emit_state. js_unfold.
    rewrite forEach_all_running; [reflexivity|exact Hs'|exact Hall|].
    apply Forall_forall. intros k Hk. apply elem_of_seq in Hk. lia.
Qed.

Lemma other_state_warns_once_each_witness :
  length (visible_persistent
            (step (WsState disconnected)
               (steps [Mount 0%nat; Mount 1%nat; WsState connected] (init ""))))
  = 2%nat /\
  step (WsState connecting)
    (step (WsState disconnected)
       (steps [Mount 0%nat; Mount 1%nat; WsState connected] (init "")))
  = step (WsState disconnected)
      (steps [Mount 0%nat; Mount 1%nat; WsState connected] (init "")).
Proof.
  assert (Hr : reachable
                 (steps [Mount 0%nat; Mount 1%nat; WsState connected] (init "")))
    by apply reachable_steps, reachable_init.
  destruct (other_state_warns_once_each _ disconnected connecting Hr
              ltac:(discriminate) ltac:(discriminate)) as (_ & Hlen & Hsame).
  split; [|exact Hsame].
  rewrite Hlen. reflexivity.
Defined.

(** ** What a listener holds *)

Lemma NoDup_fmap_eq (l : list Toast) (a b : Toast) :
  NoDup (toast_id <$> l) -> a ∈ l -> b ∈ l -> toast_id a = toast_id b ->
  a = b.
Proof.
  induction l as [|t l IH]; intros Hnd Ha Hb Heq; [inversion Ha|].
  rewrite fmap_cons in Hnd. apply NoDup_cons in Hnd as [Hnot Hnd].
  apply elem_of_cons in Ha as [->|Ha]; apply elem_of_cons in Hb as [->|Hb].
  - reflexivity.
  - exfalso. apply Hnot. rewrite Heq. apply list_elem_of_fmap. eauto.
  - exfalso. apply Hnot. rewrite <- Heq. apply list_elem_of_fmap. eauto.
  - exact (IH Hnd Ha Hb Heq).
Qed.

Lemma running_held_once (ls : list (option nat)) (k k' t : nat) :
  NoDup (running ls) ->
  ls !! k = Some (Some t) -> ls !! k' = Some (Some t) -> k = k'.
Proof.
  unfold running. revert k k'.
  induction ls as [|c l IH]; intros k k' Hnd Hk Hk'; [discriminate Hk|].
  assert (Hin : forall j, l !! j = Some (Some t) -> t ∈ omap id l).
  { intros j Hj. apply list_elem_of_omap. exists (Some t).
    split; [apply list_elem_of_lookup; eauto|reflexivity]. }
  destruct k as [|k], k' as [|k']; simpl in Hk, Hk'.
  - reflexivity.
  - injection Hk as ->. simpl in Hnd. apply NoDup_cons in Hnd as [Hnot _].
    exfalso. exact (Hnot (Hin k' Hk')).
  - injection Hk' as ->. simpl in Hnd. apply NoDup_cons in Hnd as [Hnot _].
    exfalso. exact (Hnot (Hin k Hk)).
  - f_equal. apply IH; [|exact Hk|exact Hk'].
    destruct c as [x|]; simpl in Hnd; [|exact Hnd].
    apply NoDup_cons in Hnd as [_ Hnd]. exact Hnd.
Qed.

(** X18. In every reachable world the toast a listener holds in
    [runningToast] is on screen, persistent, the only toast with that
    identifier, and held by no other listener: [toast.dismiss] in the
    ["connected"] branch always removes exactly the listener's own
    toast. *)
Theorem listener_holds_live_toast (w : World) (k t : nat) :
  reachable w -> listeners w !! k = Some (Some t) ->
  (exists toast : Toast,
     toast ∈ toasts w /\ toast_id toast = t /\ persistent toast /\
     forall other : Toast,
       other ∈ toasts w -> toast_id other = t -> other = toast) /\
  (forall k' : nat, listeners w !! k' = Some (Some t) -> k' = k).
Proof.
  intros Hw Hk. pose proof (reachable_toast_inv w Hw) as Hinv.
  pose proof (running_NoDup _ _ _ Hinv) as Hrun.
  destruct Hinv as (_ & Hnd & Hperm).
  split.
  - assert (Hin : t ∈ toast_id <$> filter persistent (toasts w)).
    { rewrite Hperm. apply list_elem_of_omap. exists (Some t).
      split; [apply list_elem_of_lookup; eauto|reflexivity]. }
    apply list_elem_of_fmap in Hin as (toast & Ht & Hin).
    apply list_elem_of_filter in Hin as [Hp Hin].
    exists toast. split; [exact Hin|]. split; [symmetry; exact Ht|].
    split; [exact Hp|].
    intros other Ho Hid.
    apply (NoDup_fmap_eq (toasts w)); [exact Hnd|exact Ho|exact Hin|congruence].
  - intros k' Hk'. exact (running_held_once _ _ _ _ Hrun Hk' Hk).
Qed.

Lemma listener_holds_live_toast_witness :
  exists toast : Toast,
    toast ∈ toasts mounted /\ toast_id toast = 0%nat /\ persistent toast /\
    forall other : Toast,
      other ∈ toasts mounted -> toast_id other = 0%nat -> other = toast.
Proof.
  exact (proj1 (listener_holds_live_toast mounted 0%nat 0%nat
                  reachable_mounted eq_refl)).
Defined.

(** ** A signal during a fetch *)

(** X19. The interceptor's signal does not touch the guard.  When it
    arrives while a fetch of the registered controller is in flight, the
    login view is rendered with the guard still set, so the [fetchUser]
    that a successful login then calls is swallowed: no new request is
    sent and the world is unchanged, Session being left to the older
    request. *)
Theorem login_during_fetch_is_swallowed (w : World) (this : nat)
    (e : ApiError) :
  guard w this = true -> USER_PROVIDER w = Some this ->
  status_code e = StatusCode.Unauthenticated ->
  render (instance (step (InspectError e) w) this) = LoginView /\
  guard (step (InspectError e) w) this = true /\
  pending (step (InspectError e) w) = pending w /\
  step (CallFetchUser this) (step (InspectError e) w)
  = step (InspectError e) w /\
  Login_onSubmit (render_onLogin this) (Fulfilled tt) (step (InspectError e) w)
  = Normal tt (step (InspectError e) w).
Proof.
  intros Hg Hu He. apply Z.eqb_eq in He.
  assert (Hs : step (InspectError e) w = write_user this unauthenticated w).
  { unfold step, run, handler, inspectError, setState. js_unfold.
    rewrite He, Hu. reflexivity. }
  rewrite Hs.
  assert (Hg' : guard (write_user this unauthenticated w) this = true)
    by (rewrite guard_write_user; exact Hg).
  split.
  - unfold render.
    change (user (state (instance (write_user this unauthenticated w) this)))
      with (session (write_user this unauthenticated w) this).
    rewrite session_write_user, decide_True by reflexivity. reflexivity.
  - split; [exact Hg'|]. split; [reflexivity|]. split.
    + unfold step, run, handler. rewrite (fetchUser_guarded _ _ Hg').
      reflexivity.
    + change (fetchUser this (write_user this unauthenticated w)
              = Normal tt (write_user this unauthenticated w)).
      apply fetchUser_guarded, Hg'.
Qed.

Lemma login_during_fetch_is_swallowed_witness :
  render (instance (step (InspectError no_session) mounted) 0%nat) = LoginView /\
  guard (step (InspectError no_session) mounted) 0%nat = true /\
  pending (step (InspectError no_session) mounted) = pending mounted /\
  step (CallFetchUser 0%nat) (step (InspectError no_session) mounted)
  = step (InspectError no_session) mounted /\
  Login_onSubmit (render_onLogin 0%nat) (Fulfilled tt)
    (step (InspectError no_session) mounted)
  = Normal tt (step (InspectError no_session) mounted).
Proof.
  apply login_during_fetch_is_swallowed; reflexivity.
Defined.

(** ** Origins without [http] *)

Lemma replace_absent (pattern replacement s : string) :
  occurs pattern s = false -> replace pattern replacement s = s.
Proof.
  induction s as [|c s IH]; simpl.
  - destruct (strip_prefix pattern ""); [discriminate|reflexivity].
  - destruct (strip_prefix pattern (String c s)); [discriminate|].
    intros H. rewrite (IH H). reflexivity.
Qed.

(** X20. [replace] changes nothing in a string the pattern does not occur
    in, so for an origin without ["http"] in it (["null"], [file://]) the
    URL given to [WS.connect] is the origin as it is, followed by the
    path. *)
Theorem ws_url_without_http (o : string) :
  occurs "http" o = false -> ws_url o = o +:+ "/api/v1/ws".
Proof.
  intros H. unfold ws_url. rewrite (replace_absent _ _ _ H). reflexivity.
Qed.

Lemma ws_url_without_http_witness :
  ws_url "file://" = "file:///api/v1/ws" /\ ws_url "null" = "null/api/v1/ws".
Proof.
  split.
  - exact (ws_url_without_http "file://" eq_refl).
  - exact (ws_url_without_http "null" eq_refl).
Defined.
